(** * hotel-booking tools: secret rotation and PGO profile generation

  A shallow embedding of [tools/change_me_local_secret.py] and of the
  logic exercised by [tools/create_pgo_test.py], with the properties the
  specification states about them.

  The scripts are embedded at two levels.  At the level of text ([Secret],
  [Pgo]) Python [str] values are Rocq strings, files hold text, every file
  is a regular file, and the only errors are the [IOError]s that the
  world attaches to a file; code that raises returns an [outcome].  One
  level down ([Codec], [Fs], [SecretBytes], [Workspace]) files hold
  bytes, reading decodes them and translates newlines, writing encodes
  and may fail after the file was emptied, [stat] and [os.remove] may be
  refused.  The claims about well-behaved files are stated at the first
  level, those that speak of every file or directory at the second. *)

From Stdlib Require Import ZArith Ascii.
From stdpp Require Import gmap strings list fin_maps.

Local Open Scope Z_scope.
Local Open Scope nat_scope.

(* ===================================================================== *)
(** * Python string primitives *)
(* ===================================================================== *)

Module PyStr.

(** [s.startswith(p)] *)
Fixpoint startswith (p s : string) : bool :=
  match p, s with
  | EmptyString, _ => true
  | String a p', String b s' => if decide (a = b) then startswith p' s' else false
  | String _ _, EmptyString => false
  end.

(** [s[n:]] *)
Fixpoint drop (n : nat) (s : string) : string :=
  match n, s with
  | O, _ => s
  | S n', String _ s' => drop n' s'
  | S _, EmptyString => EmptyString
  end.

(** [s[:n]] *)
Fixpoint take (n : nat) (s : string) : string :=
  match n, s with
  | O, _ => EmptyString
  | S n', String c s' => String c (take n' s')
  | S _, EmptyString => EmptyString
  end.

(** [p in s]: [p] occurs in [s] as a contiguous substring. *)
Fixpoint contains (p s : string) : bool :=
  startswith p s ||
  match s with
  | EmptyString => false
  | String _ s' => contains p s'
  end.

(** [c in s] for a single character. *)
Fixpoint has_char (c : ascii) (s : string) : bool :=
  match s with
  | EmptyString => false
  | String d s' => if decide (c = d) then true else has_char c s'
  end.

(** The left-to-right scan of [s.replace(old, new)] for a non-empty [old]:
    [skip] counts the characters of a matched occurrence still to be
    passed over, so occurrences are taken greedily and never overlap. *)
Fixpoint replace_scan (old new : string) (skip : nat) (s : string) : string :=
  match s with
  | EmptyString => EmptyString
  | String c s' =>
      match skip with
      | S k => replace_scan old new k s'
      | O =>
          if startswith old s
          then new +:+ replace_scan old new (String.length old - 1) s'
          else String c (replace_scan old new 0 s')
      end
  end.

(** [s.replace("", new)] puts [new] before every character and at the end. *)
Fixpoint interleave (new s : string) : string :=
  match s with
  | EmptyString => new
  | String c s' => new +:+ String c (interleave new s')
  end.

(** [s.replace(old, new)] *)
Definition replace (old new s : string) : string :=
  match old with
  | EmptyString => interleave new s
  | String _ _ => replace_scan old new 0 s
  end.

(** [p] has no border: no proper, non-empty end of [p] is also a
    beginning of it, so two occurrences of [p] never overlap. *)
Definition unbordered (p : string) : bool :=
  forallb (fun k => negb (startswith (drop k p) p))
          (seq 1 (String.length p - 1)).

(** [all(pred(c) for c in s)] *)
Fixpoint all_chars (pred : ascii -> bool) (s : string) : bool :=
  match s with
  | EmptyString => true
  | String c s' => pred c && all_chars pred s'
  end.

End PyStr.

(* ===================================================================== *)
(** * tools/change_me_local_secret.py *)
(* ===================================================================== *)

Module Secret.

Definition PLACEHOLDER : string := "CHANGE_ME_LOCAL_SECRET".

Definition ENV_PATH : string := ".env".
Definition REALM_PATH : string := ".keycloak.json".

Definition ascii_lowercase : string := "abcdefghijklmnopqrstuvwxyz".
Definition ascii_uppercase : string := "ABCDEFGHIJKLMNOPQRSTUVWXYZ".
Definition ascii_letters : string := ascii_lowercase +:+ ascii_uppercase.
Definition digits : string := "0123456789".

Definition ALPHABET : string := ascii_letters +:+ digits.

(** ** The world the script runs in *)

(** A file holds text.  [read_error] and [write_error] carry the message
    of the [IOError] that reading, respectively writing, the file raises
    (permissions, a failing device); [None] means the operation works. *)
Record file := File {
  content : string;
  read_error : option string;
  write_error : option string
}.

(** A freshly created file. *)
Definition new_file (text : string) : file :=
  {| content := text; read_error := None; write_error := None |}.

Definition with_content (f : file) (text : string) : file :=
  {| content := text; read_error := read_error f; write_error := write_error f |}.

(** The filesystem, what was printed, and the operating system's entropy:
    [tape i] is the [i]-th random number it hands out. *)
Record world := World {
  files : gmap string file;
  stdout : list string;
  tape : nat -> nat;
  drawn : nat
}.

Definition set_files (w : world) (fs : gmap string file) : world :=
  {| files := fs; stdout := stdout w; tape := tape w; drawn := drawn w |}.

(** ** Exceptions and the monad of effects *)

Inductive exn :=
| IOError (msg : string)
| IndexError (msg : string).

Inductive outcome (A : Type) :=
| Ok (a : A)
| Raised (e : exn).
Arguments Ok {A} a.
Arguments Raised {A} e.

Definition io (A : Type) : Type := world -> outcome A * world.

Definition ret {A} (a : A) : io A := fun w => (Ok a, w).

Definition raise {A} (e : exn) : io A := fun w => (Raised e, w).

Definition bind {A B} (m : io A) (k : A -> io B) : io B :=
  fun w =>
    match m w with
    | (Ok a, w') => k a w'
    | (Raised e, w') => (Raised e, w')
    end.

(** [try: x = body / except IOError as e: handler(e)] followed by the rest
    of the function, [k x].  A handler that ends in [return] is a handler
    with nothing after it.  Only [IOError] is caught. *)
Definition try_except_IOError {A B}
    (body : io A) (handler : string -> io B) (k : A -> io B) : io B :=
  fun w =>
    match body w with
    | (Ok a, w') => k a w'
    | (Raised (IOError msg), w') => handler msg w'
    | (Raised e, w') => (Raised e, w')
    end.

#[global] Instance io_ret : MRet io := @ret.
#[global] Instance io_bind : MBind io := fun A B k m => bind m k.

(** ** Library calls *)

(** [print(line)] *)
Definition print (line : string) : io unit :=
  fun w =>
    (Ok tt, {| files := files w; stdout := stdout w ++ [line];
               tape := tape w; drawn := drawn w |}).

(** [path.exists()] *)
Definition path_exists (path : string) : io bool :=
  fun w => (Ok (bool_decide (is_Some (files w !! path))), w).

(** [path.read_text(encoding="utf-8")] *)
Definition read_text (path : string) : io string :=
  fun w =>
    match files w !! path with
    | None => (Raised (IOError "No such file or directory"), w)
    | Some f =>
        match read_error f with
        | Some msg => (Raised (IOError msg), w)
        | None => (Ok (content f), w)
        end
    end.

(** [path.write_text(text, encoding="utf-8")]: replaces the whole content,
    creating the file when it is missing. *)
Definition write_text (path text : string) : io unit :=
  fun w =>
    match files w !! path with
    | None => (Ok tt, set_files w (<[path := new_file text]> (files w)))
    | Some f =>
        match write_error f with
        | Some msg => (Raised (IOError msg), w)
        | None => (Ok tt, set_files w (<[path := with_content f text]> (files w)))
        end
    end.

(** [secrets.randbelow(n)] for [n > 0] *)
Definition randbelow (n : nat) : io nat :=
  fun w =>
    (Ok (tape w (drawn w) mod n),
     {| files := files w; stdout := stdout w;
        tape := tape w; drawn := S (drawn w) |}).

(** [secrets.choice(seq)] *)
Definition choice (seq : string) : io ascii :=
  match seq with
  | EmptyString => raise (IndexError "Cannot choose from an empty sequence")
  | String c0 _ =>
      i ← randbelow (String.length seq);
      mret (default c0 (String.get i seq))
  end.

(** ** The script *)

(** ["".join(secrets.choice(ALPHABET) for _ in range(n))] *)
Fixpoint generate_chars (n : nat) : io string :=
  match n with
  | O => mret EmptyString
  | S n' =>
      c ← choice ALPHABET;
      rest ← generate_chars n';
      mret (String c rest)
  end.

(** [generate_secret(length)]; [range] of a negative number is empty. *)
Definition generate_secret (length : Z) : io string :=
  generate_chars (Z.to_nat length).

Definition replace_placeholder (path secret : string) : io unit :=
  present ← path_exists path;
  if negb present then mret tt
  else
    try_except_IOError
      (read_text path)
      (fun e => print ("Warning: Could not read " +:+ path +:+ ": " +:+ e))
      (fun text =>
         if negb (PyStr.contains PLACEHOLDER text) then mret tt
         else
           try_except_IOError
             (write_text path (PyStr.replace PLACEHOLDER secret text);;
              print ("Updated secret in: " +:+ path))
             (fun e => print ("Error writing to " +:+ path +:+ ": " +:+ e))
             mret).

Definition main : io unit :=
  print "Starting local secret rotation...";;
  secret ← generate_secret 32;
  print ("Generated new secret: " +:+ secret);;
  replace_placeholder ENV_PATH secret;;
  replace_placeholder REALM_PATH secret;;
  print "Secret rotation complete.".

(** ** What the specification says, in its own words *)

(** [Replaced old new s t]: [t] is [s] with every occurrence of [old]
    replaced by [new] and everything outside the occurrences unchanged.
    A text without an occurrence stays as it is; a text split around an
    occurrence has the occurrence replaced and both sides treated alike. *)
Inductive Replaced (old new : string) : string -> string -> Prop :=
| Replaced_none s :
    PyStr.contains old s = false -> Replaced old new s s
| Replaced_occurrence u v u' v' :
    Replaced old new u u' ->
    Replaced old new v v' ->
    Replaced old new (u +:+ old +:+ v) (u' +:+ new +:+ v').

(** Alphanumeric: a letter or a digit. *)
Definition is_alnum (c : ascii) : bool :=
  let n := nat_of_ascii c in
  ((48 <=? n) && (n <=? 57)) || ((65 <=? n) && (n <=? 90))
  || ((97 <=? n) && (n <=? 122)).

(** ** Two worlds to run the script in *)

(** A fresh checkout: [.env] was copied from its template. *)
Definition example_world : world :=
  {| files := {[ ENV_PATH := new_file "SECRET=CHANGE_ME_LOCAL_SECRET" ]};
     stdout := [];
     tape := fun i => 7 * i;
     drawn := 0 |}.

(** The same, with a [.env] that the user may not read. *)
Definition locked_world : world :=
  {| files := {[ ENV_PATH := {| content := "SECRET=CHANGE_ME_LOCAL_SECRET";
                                read_error := Some "Permission denied";
                                write_error := None |} ]};
     stdout := [];
     tape := fun i => 7 * i;
     drawn := 0 |}.

(** Both local files copied from their templates. *)
Definition synced_world : world :=
  {| files := {[ ENV_PATH := new_file "OIDC_CLIENT_SECRET=CHANGE_ME_LOCAL_SECRET";
                 REALM_PATH := new_file "{secret: CHANGE_ME_LOCAL_SECRET}" ]};
     stdout := [];
     tape := fun i => 7 * i;
     drawn := 0 |}.

End Secret.

(* ===================================================================== *)
(** * tools/create_pgo_test.py *)
(* ===================================================================== *)

Module Pgo.

(** ** Artifact names (TestProfileFilenameGeneration) *)

(** [suffix = pkg.replace("/", "__").replace("\\", "__")] *)
Definition suffix (pkg : string) : string :=
  PyStr.replace "\" "__" (PyStr.replace "/" "__" pkg).

(** [output_file = f"cpuprofile-{suffix}.pprof"] *)
Definition output_file (pkg : string) : string :=
  "cpuprofile-" +:+ suffix pkg +:+ ".pprof".

(** The specification's wording of the same name: every forward slash and
    every backslash of the identifier becomes a double underscore, every
    other character stays. *)
Definition substitute_char (c : ascii) : string :=
  if decide (c = "/"%char) then "__"
  else if decide (c = "\"%char) then "__"
  else String c EmptyString.

Fixpoint substitute_separators (id : string) : string :=
  match id with
  | EmptyString => EmptyString
  | String c rest => substitute_char c +:+ substitute_separators rest
  end.

Definition artifact_filename (id : string) : string :=
  "cpuprofile-" +:+ substitute_separators id +:+ ".pprof".

(** An identifier without backslash and without underscore. *)
Definition plain_identifier (id : string) : bool :=
  negb (PyStr.has_char "\"%char id) && negb (PyStr.has_char "_"%char id).

(** ** Cleanup (TestCleanupLogic, TestIntegrationScenarios) *)

(** [fnmatch.fnmatchcase(name, pat)] for patterns made of literal
    characters, [*] and [?], which is all the script's patterns use. *)
Fixpoint fnmatchcase (name pat : string) {struct pat} : bool :=
  match pat with
  | EmptyString =>
      match name with EmptyString => true | String _ _ => false end
  | String p pat' =>
      if decide (p = "*"%char) then
        (fix star (n : string) : bool :=
           fnmatchcase n pat' ||
           match n with
           | EmptyString => false
           | String _ n' => star n'
           end) name
      else
        match name with
        | EmptyString => false
        | String c name' =>
            if decide (p = "?"%char) then fnmatchcase name' pat'
            else if decide (p = c) then fnmatchcase name' pat'
            else false
        end
  end.

(** [glob._ishidden] *)
Definition ishidden (path : string) : bool := PyStr.startswith "." path.

(** A directory: the names of its regular files and what they hold. *)
Abbreviation directory := (gmap string string).

(** [glob.glob(pattern)] in the current directory, for a pattern with a
    wildcard and no directory part: the entries that match, hidden ones
    only when the pattern itself starts with a dot. *)
Definition glob (pattern : string) (cwd : directory) : list string :=
  List.filter
    (fun name =>
       (ishidden pattern || negb (ishidden name)) && fnmatchcase name pattern)
    (map fst (map_to_list cwd)).

(** [os.remove(f)]; [None] is the [FileNotFoundError] of a missing file. *)
Definition os_remove (f : string) (cwd : directory) : option directory :=
  match cwd !! f with
  | Some _ => Some (delete f cwd)
  | None => None
  end.

(** [for f in names: os.remove(f)] *)
Fixpoint remove_each (names : list string) (cwd : directory) : option directory :=
  match names with
  | [] => Some cwd
  | f :: rest => cwd' ← os_remove f cwd; remove_each rest cwd'
  end.

(** The cleanup of [test_full_cleanup_scenario]:
    [for f in glob.glob("cpuprofile*.pprof"): os.remove(f)] and then
    [for f in glob.glob("*.test"): os.remove(f)]. *)
Definition cleanup (cwd : directory) : option directory :=
  cwd1 ← remove_each (glob "cpuprofile*.pprof" cwd) cwd;
  remove_each (glob "*.test" cwd1) cwd1.

(** What the two patterns mean, spelled out. *)
Definition is_profile_name (name : string) : Prop :=
  exists middle, name = "cpuprofile" +:+ middle +:+ ".pprof".

Definition is_test_binary_name (name : string) : Prop :=
  ishidden name = false /\ exists stem, name = stem +:+ ".test".


(** ** The benchmark command (TestBenchmarkCommand) *)

(** The argument vector of [test_benchmark_command_structure], for a
    package and the file its profile goes to. *)
Definition benchmark_command (pkg output : string) : list string :=
  [ "go"; "test"; "./" +:+ pkg +:+ "/..."; "-run=^$"; "-bench=.";
    "-benchtime=10s"; "-cpuprofile=" +:+ output; "-pgo=off" ].

(** The test's own file name, with forward slashes only:
    [suffix = pkg.replace("/", "__")]. *)
Definition test_output_file (pkg : string) : string :=
  "cpuprofile-" +:+ PyStr.replace "/" "__" pkg +:+ ".pprof".

(** Modelled from the spec: the command PackageProfiler hands to
    CommandRunner for one unit ([create_pgo.py] is not among the sources).
    Step 1 computes the unit's ArtifactPath, step 2 builds the benchmark
    command that writes the CPU profile there. *)
Definition profiler_command (unit : string) : list string :=
  benchmark_command unit (output_file unit).

(** ** Patterns of [-run] and [-bench] (test_benchmark_skips_unit_tests) *)

(** The pieces of regular-expression syntax the two patterns use. *)
Inductive re_item :=
| ReStart                (* ^ *)
| ReEnd                  (* $ *)
| ReAny                  (* . *)
| ReChar (c : ascii).

Definition re_item_of (c : ascii) : re_item :=
  if decide (c = "^"%char) then ReStart
  else if decide (c = "$"%char) then ReEnd
  else if decide (c = "."%char) then ReAny
  else ReChar c.

(** [re.compile(pattern)] *)
Fixpoint re_compile (pattern : string) : list re_item :=
  match pattern with
  | EmptyString => []
  | String c rest => re_item_of c :: re_compile rest
  end.

Definition newline : ascii := "010"%char.

(** Matching the items at the current position; [at_start] tells whether
    that position is the beginning of the text.  [$] holds at the end and
    just before a final newline; [.] takes any character but a newline. *)
Fixpoint re_match_here (items : list re_item) (at_start : bool) (s : string) : bool :=
  match items with
  | [] => true
  | ReStart :: items' => at_start && re_match_here items' at_start s
  | ReEnd :: items' =>
      match s with
      | EmptyString => re_match_here items' at_start s
      | String c EmptyString =>
          if decide (c = newline) then re_match_here items' at_start s else false
      | String _ (String _ _) => false
      end
  | ReAny :: items' =>
      match s with
      | EmptyString => false
      | String c s' =>
          if decide (c = newline) then false else re_match_here items' false s'
      end
  | ReChar c :: items' =>
      match s with
      | EmptyString => false
      | String d s' =>
          if decide (c = d) then re_match_here items' false s' else false
      end
  end.

(** [re.compile(pattern).match(s) is not None] *)
Definition re_match (pattern s : string) : bool :=
  re_match_here (re_compile pattern) true s.

(** ** CommandRunner *)

(** A command is an argument vector or a line for the shell. *)
Inductive command_spec :=
| Argv (args : list string)
| ShellLine (line : string).

(** The machine the pipeline runs on: [exit_status i c] is the status with
    which the [i]-th process started exits when it runs [c]; [spawned]
    lists the processes started so far, with their shell flag. *)
Record machine := Machine {
  exit_status : nat -> command_spec -> Z;
  spawned : list (command_spec * bool)
}.

(** How a call ends: it returns to its caller, or the whole process
    terminates with an exit status, or some other error is raised. *)
Inductive run_result :=
| Returned (status : Z)
| Terminated (status : Z)
| Failed (error : string).

(** Starting the external process and waiting for it. *)
Definition spawn (commandSpec : command_spec) (useShellInterpretation : bool)
    (m : machine) : Z * machine :=
  (exit_status m (length (spawned m)) commandSpec,
   {| exit_status := exit_status m;
      spawned := spawned m ++ [(commandSpec, useShellInterpretation)] |}).

(** Modelled from the spec: [run_command] of [create_pgo.py], which is not
    among the sources (section 4.1, CommandRunner).  The command runs
    once; with [enforceSuccess] a non-zero status terminates the process
    with that status, otherwise the status is returned to the caller. *)
Definition run_command (commandSpec : command_spec)
    (useShellInterpretation enforceSuccess : bool) (m : machine)
    : run_result * machine :=
  let '(status, m') := spawn commandSpec useShellInterpretation m in
  if enforceSuccess && negb (status =? 0)%Z
  then (Terminated status, m')
  else (Returned status, m').

(** ** The merge command (TestMergeCommand) *)

(** The wildcard of the merge command,
    [go tool pprof -proto cpuprofile-*.pprof > cpuprofile-merged.pprof]. *)
Definition merge_pattern : string := "cpuprofile-*.pprof".

End Pgo.

(* ===================================================================== *)
(** * Python's text layer: the UTF-8 codec and newline translation *)
(* ===================================================================== *)

Module Codec.

Definition byte_in (lo hi : nat) (c : ascii) : bool :=
  (lo <=? nat_of_ascii c) && (nat_of_ascii c <=? hi).

Definition is_ascii (c : ascii) : bool := byte_in 0 127 c.

Definition continuation (c : ascii) : bool := byte_in 128 191 c.

(** The first bytes of the well-formed sequences of two, three and four
    bytes: no overlong form, no surrogate, nothing above U+10FFFF. *)
Definition lead2 (c0 : ascii) : bool := byte_in 194 223 c0.

Definition lead3 (c0 c1 : ascii) : bool :=
  (byte_in 224 224 c0 && byte_in 160 191 c1)
  || (byte_in 225 236 c0 && continuation c1)
  || (byte_in 237 237 c0 && byte_in 128 159 c1)
  || (byte_in 238 239 c0 && continuation c1).

Definition lead4 (c0 c1 : ascii) : bool :=
  (byte_in 240 240 c0 && byte_in 144 191 c1)
  || (byte_in 241 243 c0 && continuation c1)
  || (byte_in 244 244 c0 && byte_in 128 143 c1).

(** [b.decode("utf-8")] succeeds, and [s.encode("utf-8")] succeeds for
    the [str] that [b] stands for. *)
Fixpoint utf8_valid (b : string) : bool :=
  match b with
  | EmptyString => true
  | String c0 r0 =>
      if is_ascii c0 then utf8_valid r0
      else
        match r0 with
        | EmptyString => false
        | String c1 r1 =>
            if lead2 c0 then continuation c1 && utf8_valid r1
            else
              match r1 with
              | EmptyString => false
              | String c2 r2 =>
                  if lead3 c0 c1 then continuation c2 && utf8_valid r2
                  else
                    match r2 with
                    | EmptyString => false
                    | String c3 r3 =>
                        lead4 c0 c1 && continuation c2 && continuation c3
                        && utf8_valid r3
                    end
              end
        end
  end.

(** One encoded character: a sequence of one to four bytes. *)
Definition is_char (ch : string) : bool :=
  match ch with
  | String c0 EmptyString => is_ascii c0
  | String c0 (String c1 EmptyString) => lead2 c0 && continuation c1
  | String c0 (String c1 (String c2 EmptyString)) =>
      lead3 c0 c1 && continuation c2
  | String c0 (String c1 (String c2 (String c3 EmptyString))) =>
      lead4 c0 c1 && continuation c2 && continuation c3
  | _ => false
  end.

(** Well-formed UTF-8: encoded characters, one after the other. *)
Inductive WellFormed : string -> Prop :=
| WellFormed_empty : WellFormed EmptyString
| WellFormed_char ch rest :
    is_char ch = true -> WellFormed rest -> WellFormed (ch +:+ rest).

Definition CR : ascii := "013"%char.
Definition LF : ascii := "010"%char.

(** Reading in text mode with universal newlines, the default: a carriage
    return with or without a line feed after it is read as one line
    feed. *)
Fixpoint universal_newlines (s : string) : string :=
  match s with
  | EmptyString => EmptyString
  | String c s' =>
      if decide (c = CR) then
        String LF
          match s' with
          | EmptyString => EmptyString
          | String d s'' =>
              if decide (d = LF) then universal_newlines s''
              else universal_newlines s'
          end
      else String c (universal_newlines s')
  end.

(** Writing in text mode: every line feed becomes [os.linesep]. *)
Definition translate_newlines (linesep text : string) : string :=
  PyStr.replace (String LF EmptyString) linesep text.

End Codec.

(* ===================================================================== *)
(** * Files as the operating system presents them *)
(* ===================================================================== *)

Module Fs.

(** A file holds bytes.  Each error field carries the message of the
    [OSError] that the operation raises on this file, [None] when it
    works: opening it for reading ([read_error]: no permission, a
    directory), opening it for writing ([open_error]: no permission, a
    directory, a read-only file system), removing it ([remove_error]: a
    directory, no permission on the directory it is in). *)
Record file := File {
  bytes : string;
  read_error : option string;
  open_error : option string;
  remove_error : option string
}.

(** A regular file that may be read, written and removed. *)
Definition plain_file (b : string) : file :=
  {| bytes := b; read_error := None; open_error := None; remove_error := None |}.

Definition set_bytes (f : file) (b : string) : file :=
  {| bytes := b; read_error := read_error f; open_error := open_error f;
     remove_error := remove_error f |}.

(** What the device does when data are written: nothing special
    ([None]), or it takes [room] bytes and then fails with an [OSError]
    ([Some (room, msg)]: no space left, a quota, a file size limit). *)
Definition fault : Type := option (nat * string).

(** Writing [data] to the file [f], which is open for writing and
    therefore empty: what the file holds afterwards, and the error
    raised, if any. *)
Definition write_bytes (device : fault) (f : file) (data : string)
    : option string * file :=
  match device with
  | Some (room, msg) =>
      if room <? String.length data
      then (Some msg, set_bytes f (PyStr.take room data))
      else (None, set_bytes f data)
  | None => (None, set_bytes f data)
  end.

End Fs.

(* ===================================================================== *)
(** * tools/change_me_local_secret.py, down to bytes *)
(* ===================================================================== *)

(** [replace_placeholder] once more, with the file operations as the
    operating system and Python's text layer perform them.  A [str] is
    represented by its UTF-8 encoding; a string that is not well-formed
    UTF-8 stands for a [str] with a lone surrogate, which cannot be
    encoded.  The placeholder is ASCII, so it occurs in a text where it
    occurs in the encoding of the text, and [in] and [str.replace] act on
    the encoding as they act on the text. *)
Module SecretBytes.

(** What is at a path: something [stat] cannot reach (a directory on the
    way may not be searched), or a file. *)
Inductive entry :=
| Inaccessible (msg : string)
| Regular (f : Fs.file).

(** The file system with its device, the platform's line separator
    ([os.linesep]) and what was printed. *)
Record world := World {
  entries : gmap string entry;
  device : Fs.fault;
  linesep : string;
  stdout : list string
}.

Definition put (path : string) (f : Fs.file) (w : world) : world :=
  {| entries := <[path := Regular f]> (entries w); device := device w;
     linesep := linesep w; stdout := stdout w |}.

(** [IOError] is [OSError] and covers its subclasses; the two Unicode
    errors are [ValueError]s. *)
Inductive exn :=
| IOError (msg : string)
| UnicodeDecodeError
| UnicodeEncodeError.

Inductive outcome (A : Type) :=
| Ok (a : A)
| Raised (e : exn).
Arguments Ok {A} a.
Arguments Raised {A} e.

Definition io (A : Type) : Type := world -> outcome A * world.

Definition ret {A} (a : A) : io A := fun w => (Ok a, w).

Definition bind {A B} (m : io A) (k : A -> io B) : io B :=
  fun w =>
    match m w with
    | (Ok a, w') => k a w'
    | (Raised e, w') => (Raised e, w')
    end.

(** [try: x = body / except IOError as e: handler(e)], then [k x]. *)
Definition try_except_IOError {A B}
    (body : io A) (handler : string -> io B) (k : A -> io B) : io B :=
  fun w =>
    match body w with
    | (Ok a, w') => k a w'
    | (Raised (IOError msg), w') => handler msg w'
    | (Raised e, w') => (Raised e, w')
    end.

#[global] Instance io_ret : MRet io := @ret.
#[global] Instance io_bind : MBind io := fun A B k m => bind m k.

(** [print(line)] *)
Definition print (line : string) : io unit :=
  fun w =>
    (Ok tt, {| entries := entries w; device := device w;
               linesep := linesep w; stdout := stdout w ++ [line] |}).

(** [path.exists()]: [stat] decides; of its errors only those that mean
    the path is not there are turned into [False]. *)
Definition path_exists (path : string) : io bool :=
  fun w =>
    match entries w !! path with
    | None => (Ok false, w)
    | Some (Inaccessible msg) => (Raised (IOError msg), w)
    | Some (Regular _) => (Ok true, w)
    end.

(** [path.read_text(encoding="utf-8")]: the file is opened, its bytes are
    decoded, strictly, and newlines are translated. *)
Definition read_text (path : string) : io string :=
  fun w =>
    match entries w !! path with
    | None => (Raised (IOError "No such file or directory"), w)
    | Some (Inaccessible msg) => (Raised (IOError msg), w)
    | Some (Regular f) =>
        match Fs.read_error f with
        | Some msg => (Raised (IOError msg), w)
        | None =>
            if Codec.utf8_valid (Fs.bytes f)
            then (Ok (Codec.universal_newlines (Fs.bytes f)), w)
            else (Raised UnicodeDecodeError, w)
        end
    end.

(** The rest of [write_text] once the file [f] at [path] is open, and so
    empty: the text is encoded, which fails before anything is written,
    and the bytes are written, which may fail half-way. *)
Definition write_opened (path : string) (f : Fs.file) (text : string) : io unit :=
  fun w =>
    if Codec.utf8_valid text then
      match Fs.write_bytes (device w) f (Codec.translate_newlines (linesep w) text) with
      | (Some msg, f') => (Raised (IOError msg), put path f' w)
      | (None, f') => (Ok tt, put path f' w)
      end
    else (Raised UnicodeEncodeError, put path (Fs.set_bytes f EmptyString) w).

(** [path.write_text(text, encoding="utf-8")]: the file is opened for
    writing, which creates it when it is missing and empties it
    otherwise; then the text is written. *)
Definition write_text (path text : string) : io unit :=
  fun w =>
    match entries w !! path with
    | None => write_opened path (Fs.plain_file EmptyString) text w
    | Some (Inaccessible msg) => (Raised (IOError msg), w)
    | Some (Regular f) =>
        match Fs.open_error f with
        | Some msg => (Raised (IOError msg), w)
        | None => write_opened path f text w
        end
    end.

Definition replace_placeholder (path secret : string) : io unit :=
  present ← path_exists path;
  if negb present then mret tt
  else
    try_except_IOError
      (read_text path)
      (fun e => print ("Warning: Could not read " +:+ path +:+ ": " +:+ e))
      (fun text =>
         if negb (PyStr.contains Secret.PLACEHOLDER text) then mret tt
         else
           try_except_IOError
             (write_text path (PyStr.replace Secret.PLACEHOLDER secret text);;
              print ("Updated secret in: " +:+ path))
             (fun e => print ("Error writing to " +:+ path +:+ ": " +:+ e))
             mret).

(** What [read_text] returns for the file [f] when it can be decoded. *)
Definition text_of (f : Fs.file) : string := Codec.universal_newlines (Fs.bytes f).

(** The bytes that a call with [secret] writes to the file [f]. *)
Definition rewritten (w : world) (f : Fs.file) (secret : string) : string :=
  Codec.translate_newlines (linesep w)
    (PyStr.replace Secret.PLACEHOLDER secret (text_of f)).

(** The bytes of the file at [path], if there is one. *)
Definition bytes_at (path : string) (w : world) : option string :=
  match entries w !! path with
  | Some (Regular f) => Some (Fs.bytes f)
  | _ => None
  end.

(** ** Worlds to run the function in *)

Definition lf : string := String Codec.LF EmptyString.
Definition crlf : string := String Codec.CR lf.

(** A world with one file, [.env], a device that works and nothing
    printed yet, on a platform with the given line separator. *)
Definition only_env (linesep : string) (f : Fs.file) : world :=
  {| entries := {[ ".env" := Regular f ]}; device := None;
     linesep := linesep; stdout := [] |}.

(** A file that may be read but not opened for writing. *)
Definition write_protected (b : string) : Fs.file :=
  {| Fs.bytes := b; Fs.read_error := None;
     Fs.open_error := Some "Permission denied"; Fs.remove_error := None |}.

(** An [.env] saved as Latin-1: byte 233 is an e with acute accent there
    and not well-formed UTF-8. *)
Definition latin1_env (value : string) : string :=
  "NAME=caf" +:+ String "233"%char lf +:+ "SECRET=" +:+ value +:+ lf.

(** An [.env] of two lines that end as [ending] says. *)
Definition two_lines (value ending : string) : string :=
  "SECRET=" +:+ value +:+ ending +:+ "PORT=8080" +:+ ending.

(** The [str] that holds the lone surrogate U+DC80: the three bytes stand
    for it, and no codec run strictly encodes it. *)
Definition lone_surrogate : string :=
  String "237"%char (String "178"%char (String "128"%char EmptyString)).

End SecretBytes.

(* ===================================================================== *)
(** * The working directory of the profile tooling, down to the entries *)
(* ===================================================================== *)

(** The cleanup loops and the copy of [tools/create_pgo_test.py] once
    more, over entries that [os.remove] and [open] may refuse. *)
Module Workspace.

Abbreviation directory := (gmap string Fs.file).

(** How a piece of the script ends: it completes, or an [OSError]
    propagates; either way the directory is in some state. *)
Inductive result :=
| Done (cwd : directory)
| Raised (error : string) (cwd : directory).

(** [glob.glob(pattern)] looks at names only. *)
Definition glob (pattern : string) (cwd : directory) : list string :=
  Pgo.glob pattern (Fs.bytes <$> cwd).

(** [os.remove(f)] *)
Definition os_remove (f : string) (cwd : directory) : result :=
  match cwd !! f with
  | None => Raised "No such file or directory" cwd
  | Some e =>
      match Fs.remove_error e with
      | Some msg => Raised msg cwd
      | None => Done (delete f cwd)
      end
  end.

(** [for f in names: os.remove(f)] *)
Fixpoint remove_each (names : list string) (cwd : directory) : result :=
  match names with
  | [] => Done cwd
  | f :: rest =>
      match os_remove f cwd with
      | Done cwd' => remove_each rest cwd'
      | Raised error cwd' => Raised error cwd'
      end
  end.

(** The cleanup of [test_full_cleanup_scenario]:
    [for f in glob.glob("cpuprofile*.pprof"): os.remove(f)] and then
    [for f in glob.glob("*.test"): os.remove(f)]. *)
Definition cleanup (cwd : directory) : result :=
  match remove_each (glob "cpuprofile*.pprof" cwd) cwd with
  | Done cwd1 => remove_each (glob "*.test" cwd1) cwd1
  | Raised error cwd1 => Raised error cwd1
  end.

(** Every entry that one of the two patterns selects can be removed: it
    is no subdirectory, and the directory may be changed. *)
Definition removable (cwd : directory) : bool :=
  forallb
    (fun name =>
       match cwd !! name with
       | Some e => bool_decide (Fs.remove_error e = None)
       | None => true
       end)
    (glob "cpuprofile*.pprof" cwd ++ glob "*.test" cwd).

(** ** Publishing the merged profile (TestFileOperations) *)

(** [open(dst, "wb")]: an existing file is emptied, a missing one is
    created, unless the operating system refuses ([create_error] for a
    new entry of the directory). *)
Definition open_wb (dst : string) (create_error : option string)
    (cwd : directory) : result :=
  match cwd !! dst with
  | None =>
      match create_error with
      | Some msg => Raised msg cwd
      | None => Done (<[dst := Fs.plain_file EmptyString]> cwd)
      end
  | Some d =>
      match Fs.open_error d with
      | Some msg => Raised msg cwd
      | None => Done (<[dst := Fs.set_bytes d EmptyString]> cwd)
      end
  end.

(** [with open(src, "rb") as src_file, open(dst, "wb") as dst_file:
       dst_file.write(src_file.read())].
    [src] is opened first, then [dst]; only then is [src] read, and what
    was read is written to [dst]. *)
Definition copy_file (src dst : string)
    (create_error : option string) (device : Fs.fault)
    (cwd : directory) : result :=
  match cwd !! src with
  | None => Raised "No such file or directory" cwd
  | Some s =>
      match Fs.read_error s with
      | Some msg => Raised msg cwd
      | None =>
          match open_wb dst create_error cwd with
          | Raised msg cwd' => Raised msg cwd'
          | Done opened =>
              match opened !! src, opened !! dst with
              | Some s', Some d' =>
                  match Fs.write_bytes device d' (Fs.bytes s') with
                  | (Some msg, d'') => Raised msg (<[dst := d'']> opened)
                  | (None, d'') => Done (<[dst := d'']> opened)
                  end
              | _, _ => Done opened
              end
          end
      end
  end.

End Workspace.

(* ===================================================================== *)
(** * Facts about strings *)
(* ===================================================================== *)

Import PyStr.

Section StringFacts.

Implicit Types (s t u v p : string) (c : ascii).

Lemma app_cons c s t : String c s +:+ t = String c (s +:+ t).
Proof. reflexivity. Qed.

Lemma app_empty_l s : EmptyString +:+ s = s.
Proof. reflexivity. Qed.

Lemma app_empty_r s : s +:+ EmptyString = s.
Proof. induction s as [|c s IH]; [done|]. by rewrite app_cons, IH. Qed.

Lemma app_assoc3 s t u : (s +:+ t) +:+ u = s +:+ t +:+ u.
Proof. induction s as [|c s IH]; [done|]. by rewrite !app_cons, IH. Qed.

Lemma length_app s t : String.length (s +:+ t) = String.length s + String.length t.
Proof. induction s as [|c s IH]; [done|]. rewrite app_cons. simpl. by rewrite IH. Qed.

Lemma app_inv_head s t u : s +:+ t = s +:+ u -> t = u.
Proof.
  induction s as [|c s IH]; [done|].
  rewrite !app_cons. intros [= H]. auto.
Qed.

Lemma app_same_length s1 s2 t1 t2 :
  String.length s1 = String.length s2 ->
  s1 +:+ t1 = s2 +:+ t2 -> s1 = s2 /\ t1 = t2.
Proof.
  revert s2. induction s1 as [|c s1 IH]; intros [|d s2]; simpl; try done.
  intros [= Hlen]. rewrite !app_cons. intros [= -> H].
  destruct (IH _ Hlen H) as [-> ->]. done.
Qed.

Lemma app_inv_tail s1 s2 t : s1 +:+ t = s2 +:+ t -> s1 = s2.
Proof.
  intros H. apply (app_same_length s1 s2 t t); [|done].
  apply (f_equal String.length) in H. rewrite !length_app in H. lia.
Qed.

Lemma app_eq_empty s t : s +:+ t = EmptyString -> s = EmptyString /\ t = EmptyString.
Proof. destruct s; [done|]. by rewrite app_cons. Qed.

(** *** [startswith] and [contains] *)

Lemma startswith_spec p s : startswith p s = true <-> exists t, s = p +:+ t.
Proof.
  revert s. induction p as [|a p IH]; intros s; simpl.
  - split; [eauto|done].
  - destruct s as [|b s].
    + split; [done|]. intros [t Ht]. by rewrite app_cons in Ht.
    + destruct (decide (a = b)) as [->|Hne].
      * rewrite IH. split; intros [t Ht]; exists t.
        -- by rewrite app_cons, Ht.
        -- rewrite app_cons in Ht. by injection Ht.
      * split; [done|]. intros [t Ht]. rewrite app_cons in Ht. congruence.
Qed.

Lemma startswith_app p s : startswith p (p +:+ s) = true.
Proof. apply startswith_spec. eauto. Qed.

Lemma startswith_app_r p s t : startswith p s = true -> startswith p (s +:+ t) = true.
Proof.
  rewrite !startswith_spec. intros [r ->]. exists (r +:+ t).
  by rewrite app_assoc3.
Qed.

Lemma contains_spec p s : contains p s = true <-> exists u v, s = u +:+ p +:+ v.
Proof.
  induction s as [|c s IH]; simpl.
  - rewrite orb_false_r, startswith_spec. split.
    + intros [t Ht]. exists EmptyString, t. done.
    + intros (u & v & H). symmetry in H.
      apply app_eq_empty in H as [_ H]. eauto.
  - rewrite orb_true_iff, startswith_spec, IH. split.
    + intros [[t Ht]|(u & v & ->)].
      * exists EmptyString, t. done.
      * exists (String c u), v. done.
    + intros ([|d u] & v & H).
      * left. eauto.
      * right. rewrite app_cons in H. injection H as -> ->. eauto.
Qed.

Lemma contains_app_l p u v : contains p u = true -> contains p (u +:+ v) = true.
Proof.
  rewrite !contains_spec. intros (a & b & ->). exists a, (b +:+ v).
  by rewrite !app_assoc3.
Qed.

Lemma contains_app_r p u v : contains p v = true -> contains p (u +:+ v) = true.
Proof.
  rewrite !contains_spec. intros (a & b & ->). exists (u +:+ a), b.
  by rewrite !app_assoc3.
Qed.

Lemma has_char_app c s t : has_char c (s +:+ t) = has_char c s || has_char c t.
Proof.
  induction s as [|d s IH]; [done|]. rewrite app_cons. simpl.
  by destruct (decide (c = d)).
Qed.

(** A text that lacks a character of [p] does not contain [p]. *)
Lemma contains_has_char c p s :
  has_char c p = true -> has_char c s = false -> contains p s = false.
Proof.
  intros Hp Hs. destruct (contains p s) eqn:E; [|done].
  apply contains_spec in E as (u & v & ->).
  rewrite !has_char_app, Hp, orb_true_r in Hs. done.
Qed.

(** *** [drop] *)

Lemma drop_app_length s t : drop (String.length s) (s +:+ t) = t.
Proof. induction s as [|c s IH]; [by destruct t|]. by rewrite app_cons. Qed.

Lemma drop_app_le n s t :
  n <= String.length s -> drop n (s +:+ t) = drop n s +:+ t.
Proof.
  revert s. induction n as [|n IH]; intros s Hn; [done|].
  destruct s as [|c s]; simpl in *; [lia|].
  rewrite ?app_cons. simpl. apply IH. lia.
Qed.

Lemma length_drop n s : String.length (drop n s) = String.length s - n.
Proof.
  revert s. induction n as [|n IH]; intros [|c s]; simpl; auto with lia.
Qed.

(** *** The scan of [replace] *)

Lemma replace_scan_skip old new k s :
  replace_scan old new k s = replace_scan old new 0 (drop k s).
Proof.
  revert k. induction s as [|c s IH]; intros [|k]; try done.
  simpl. apply IH.
Qed.

Lemma replace_scan_empty old new k : replace_scan old new k EmptyString = EmptyString.
Proof. by destruct k. Qed.

(** The scan at a position where [old] starts, and where it does not. *)
Lemma replace_scan_hit old new s :
  old <> EmptyString -> startswith old s = true ->
  replace_scan old new 0 s
  = new +:+ replace_scan old new 0 (drop (String.length old) s).
Proof.
  intros Hold Hs. destruct s as [|c s]; [by destruct old|].
  simpl replace_scan. rewrite Hs.
  rewrite (replace_scan_skip _ _ (_ - 1)).
  destruct old as [|a old]; [done|]. simpl. by rewrite Nat.sub_0_r.
Qed.

Lemma replace_scan_miss old new c s :
  startswith old (String c s) = false ->
  replace_scan old new 0 (String c s) = String c (replace_scan old new 0 s).
Proof. intros Hs. simpl replace_scan. by rewrite Hs. Qed.

(** A text without an occurrence of [old] is left as it is. *)
Lemma replace_scan_absent old new s :
  contains old s = false -> replace_scan old new 0 s = s.
Proof.
  induction s as [|c s IH]; [done|].
  cbn [contains]. intros [H1 H2]%orb_false_elim.
  rewrite replace_scan_miss by done. by rewrite IH.
Qed.

End StringFacts.

(* ===================================================================== *)
(** * Artifact names *)
(* ===================================================================== *)

Section ArtifactNames.

Import Pgo.

(** Replacing a single character works piece by piece. *)
Lemma replace_char_cons a new c s :
  replace (String a EmptyString) new (String c s)
  = (if decide (a = c) then new else String c EmptyString)
    +:+ replace (String a EmptyString) new s.
Proof.
  unfold replace. simpl replace_scan.
  destruct (decide (a = c)); reflexivity.
Qed.

Lemma replace_char_app a new s t :
  replace (String a EmptyString) new (s +:+ t)
  = replace (String a EmptyString) new s +:+ replace (String a EmptyString) new t.
Proof.
  induction s as [|c s IH]; [done|].
  rewrite app_cons, !replace_char_cons, IH. by rewrite app_assoc3.
Qed.

Lemma suffix_cons c rest :
  suffix (String c rest) = substitute_char c +:+ suffix rest.
Proof.
  unfold suffix. rewrite replace_char_cons, replace_char_app. f_equal.
  unfold substitute_char.
  destruct (decide ("/"%char = c)) as [<-|Hc]; [done|].
  rewrite (decide_False (P := c = "/"%char)) by congruence.
  rewrite replace_char_cons.
  destruct (decide ("\"%char = c)) as [<-|Hd]; [done|].
  by rewrite (decide_False (P := c = "\"%char)) by congruence.
Qed.

Lemma suffix_substitutes id : suffix id = substitute_separators id.
Proof.
  induction id as [|c rest IH]; [done|].
  rewrite suffix_cons. simpl. by rewrite IH.
Qed.

Lemma output_file_artifact_filename id : output_file id = artifact_filename id.
Proof. unfold output_file, artifact_filename. by rewrite suffix_substitutes. Qed.

(** C2.  The file name derived for a unit is [cpuprofile-<id'>.pprof],
    where [id'] is the identifier with every forward slash and every
    backslash replaced by two underscores. *)
Theorem output_file_substitutes_separators (id : string) :
  output_file id = "cpuprofile-" +:+ substitute_separators id +:+ ".pprof".
Proof. unfold output_file. by rewrite suffix_substitutes. Qed.

(** The examples of the tests. *)
Example output_file_examples :
  output_file "cmd/server" = "cpuprofile-cmd__server.pprof"
  /\ output_file "internal/adapters/inbound"
     = "cpuprofile-internal__adapters__inbound.pprof"
  /\ output_file "pkg" = "cpuprofile-pkg.pprof"
  /\ output_file "internal\adapters\outbound"
     = "cpuprofile-internal__adapters__outbound.pprof".
Proof. repeat split; reflexivity. Qed.

(** Two names coincide exactly when the substituted identifiers do. *)
Lemma output_file_eq_iff id1 id2 :
  output_file id1 = output_file id2
  <-> substitute_separators id1 = substitute_separators id2.
Proof.
  rewrite !output_file_artifact_filename. unfold artifact_filename.
  split; [|by intros ->].
  intros H. apply app_inv_head in H. by apply app_inv_tail in H.
Qed.

Lemma substitute_char_plain c :
  c <> "\"%char -> c <> "_"%char ->
  substitute_char c = String c EmptyString \/ (c = "/"%char /\ substitute_char c = "__").
Proof.
  intros H1 H2. unfold substitute_char.
  destruct (decide (c = "/"%char)); [by right|].
  rewrite decide_False by done. by left.
Qed.

Lemma plain_identifier_cons c s :
  plain_identifier (String c s) = true ->
  c <> "\"%char /\ c <> "_"%char /\ plain_identifier s = true.
Proof.
  unfold plain_identifier. simpl.
  destruct (decide ("\"%char = c)); [done|].
  destruct (decide ("_"%char = c)); [by rewrite andb_false_r|].
  intros H. repeat split; congruence.
Qed.

(** On identifiers without backslash and underscore the substitution can
    be undone, so it is injective there. *)
Lemma substitute_separators_inj_plain id1 id2 :
  plain_identifier id1 = true -> plain_identifier id2 = true ->
  substitute_separators id1 = substitute_separators id2 -> id1 = id2.
Proof.
  revert id2. induction id1 as [|c r1 IH]; intros [|d r2] P1 P2; simpl; try done.
  - apply plain_identifier_cons in P2 as (Hd1 & Hd2 & _).
    destruct (substitute_char_plain d Hd1 Hd2) as [->|[_ ->]]; done.
  - apply plain_identifier_cons in P1 as (Hc1 & Hc2 & _).
    destruct (substitute_char_plain c Hc1 Hc2) as [->|[_ ->]]; done.
  - apply plain_identifier_cons in P1 as (Hc1 & Hc2 & P1).
    apply plain_identifier_cons in P2 as (Hd1 & Hd2 & P2).
    destruct (substitute_char_plain c Hc1 Hc2) as [->|[-> ->]];
      destruct (substitute_char_plain d Hd1 Hd2) as [->|[-> ->]];
      rewrite ?app_cons, ?app_empty_l; intros [= ]; subst; try done.
    + f_equal. by apply IH.
    + f_equal. by apply IH.
Qed.

(** C3, as the code has it.  Distinct identifiers that contain neither a
    backslash nor an underscore get distinct file names. *)
Theorem output_file_injective_on_plain (id1 id2 : string) :
  plain_identifier id1 = true ->
  plain_identifier id2 = true ->
  id1 <> id2 ->
  output_file id1 <> output_file id2.
Proof.
  intros P1 P2 Hne H. apply Hne.
  apply substitute_separators_inj_plain; [done..|].
  by apply output_file_eq_iff.
Qed.

Lemma output_file_injective_on_plain_witness :
  output_file "cmd/server" <> output_file "internal/adapters/inbound".
Proof.
  apply (output_file_injective_on_plain "cmd/server" "internal/adapters/inbound").
  - reflexivity.
  - reflexivity.
  - discriminate.
Defined.

(** C3, as stated, fails: a forward slash and a backslash are both turned
    into the same two underscores, so these two distinct identifiers
    share one file name. *)
Lemma output_file_collision :
  "internal/adapters" <> "internal\adapters"
  /\ output_file "internal/adapters" = output_file "internal\adapters".
Proof. split; [discriminate|reflexivity]. Qed.

(** An underscore pair written in the identifier collides as well. *)
Example output_file_collision_underscores :
  output_file "cmd/server" = output_file "cmd__server".
Proof. reflexivity. Qed.

End ArtifactNames.

(* ===================================================================== *)
(** * Cleanup of the working directory *)
(* ===================================================================== *)

Section Cleanup.

Import Pgo.

Implicit Types (cwd : gmap string string) (name pat : string).

(** *** Patterns *)

Lemma fnmatchcase_star name pat :
  fnmatchcase name (String "*" pat)
  = fnmatchcase name pat ||
    match name with
    | EmptyString => false
    | String _ name' => fnmatchcase name' (String "*" pat)
    end.
Proof. by destruct name. Qed.

Lemma fnmatchcase_star_spec name pat :
  fnmatchcase name (String "*" pat) = true
  <-> exists u v, name = u +:+ v /\ fnmatchcase v pat = true.
Proof.
  induction name as [|c name IH]; rewrite fnmatchcase_star, orb_true_iff.
  - split.
    + intros [H|H]; [|done]. by exists EmptyString, EmptyString.
    + intros (u & v & Huv & H). symmetry in Huv.
      apply app_eq_empty in Huv as [_ ->]. by left.
  - rewrite IH. split.
    + intros [H|(u & v & -> & H)].
      * by exists EmptyString, (String c name).
      * by exists (String c u), v.
    + intros ([|d u] & v & Huv & H).
      * rewrite app_empty_l in Huv. subst v. by left.
      * rewrite app_cons in Huv. injection Huv as -> ->. right. eauto.
Qed.

Lemma fnmatchcase_char p name pat :
  p <> "*"%char -> p <> "?"%char ->
  fnmatchcase name (String p pat) = true
  <-> exists rest, name = String p rest /\ fnmatchcase rest pat = true.
Proof.
  intros H1 H2. cbn [fnmatchcase]. rewrite !decide_False by done.
  destruct name as [|c name].
  - split; [done|]. by intros (r & ? & _).
  - rewrite decide_False by done. destruct (decide (p = c)) as [->|Hne].
    + split; [eauto|]. by intros (r & [= ->] & H).
    + split; [done|]. intros (r & [= ? ?] & _). done.
Qed.

(** A pattern without wildcard matches itself and nothing else. *)
Lemma fnmatchcase_literal name pat :
  has_char "*" pat = false -> has_char "?" pat = false ->
  fnmatchcase name pat = true <-> name = pat.
Proof.
  revert name. induction pat as [|p pat IH]; intros name Hs Hq.
  - destruct name; simpl; split; done.
  - simpl in Hs, Hq.
    destruct (decide ("*"%char = p)); [done|].
    destruct (decide ("?"%char = p)); [done|].
    rewrite fnmatchcase_char by congruence. split.
    + intros (r & -> & H). f_equal. by apply IH.
    + intros ->. exists pat. split; [done|]. by apply IH.
Qed.

(** [cpuprofile*.pprof] selects the names that start with [cpuprofile]
    and end with [.pprof]. *)
Lemma fnmatchcase_profile name :
  fnmatchcase name "cpuprofile*.pprof" = true <-> is_profile_name name.
Proof.
  unfold is_profile_name. split.
  - intros H.
    repeat (apply fnmatchcase_char in H as (? & -> & H); [|done..]).
    apply fnmatchcase_star_spec in H as (u & v & -> & H).
    apply fnmatchcase_literal in H as ->; [|done..]. by exists u.
  - intros [middle ->].
    repeat (rewrite app_cons; apply fnmatchcase_char; [done..|];
            eexists; split; [reflexivity|]).
    rewrite app_empty_l. apply fnmatchcase_star_spec.
    exists middle, ".pprof". split; [done|]. by apply fnmatchcase_literal.
Qed.

(** [*.test] selects the names that end with [.test]. *)
Lemma fnmatchcase_test name :
  fnmatchcase name "*.test" = true <-> exists stem, name = stem +:+ ".test".
Proof.
  rewrite fnmatchcase_star_spec. split.
  - intros (u & v & -> & H). apply fnmatchcase_literal in H as ->; [|done..].
    by exists u.
  - intros [stem ->]. exists stem, ".test". split; [done|].
    by apply fnmatchcase_literal.
Qed.

Lemma profile_name_not_hidden name : is_profile_name name -> ishidden name = false.
Proof. by intros [middle ->]. Qed.

(** *** [glob] *)

Lemma In_glob pat cwd name :
  name ∈ glob pat cwd
  <-> is_Some (cwd !! name)
      /\ (ishidden pat || negb (ishidden name)) && fnmatchcase name pat = true.
Proof.
  rewrite list_elem_of_In. unfold glob. rewrite filter_In, in_map_iff. split.
  - intros [([k v] & <- & Hkv) H]. split; [|done].
    apply list_elem_of_In, elem_of_map_to_list in Hkv. simpl. eauto.
  - intros [[v Hv] H]. split; [|done]. exists (name, v). split; [done|].
    by apply list_elem_of_In, elem_of_map_to_list.
Qed.

Lemma NoDup_glob pat cwd : NoDup (glob pat cwd).
Proof.
  apply NoDup_ListNoDup, List.NoDup_filter, NoDup_ListNoDup, NoDup_fst_map_to_list.
Qed.

Lemma In_glob_profile cwd name :
  name ∈ glob "cpuprofile*.pprof" cwd
  <-> is_Some (cwd !! name) /\ is_profile_name name.
Proof.
  rewrite In_glob, <- fnmatchcase_profile. split; intros [? H]; split; try done.
  - by apply andb_true_iff in H as [_ ?].
  - apply andb_true_iff. split; [|done].
    apply fnmatchcase_profile, profile_name_not_hidden in H. by rewrite H.
Qed.

Lemma In_glob_test cwd name :
  name ∈ glob "*.test" cwd
  <-> is_Some (cwd !! name) /\ is_test_binary_name name.
Proof.
  rewrite In_glob. unfold is_test_binary_name. rewrite <- fnmatchcase_test.
  simpl. rewrite andb_true_iff, negb_true_iff. tauto.
Qed.

(** *** Removing the files found *)

Lemma remove_each_lookup names cwd :
  NoDup names -> (forall f, f ∈ names -> is_Some (cwd !! f)) ->
  exists cwd', remove_each names cwd = Some cwd'
    /\ forall name, cwd' !! name = if decide (name ∈ names) then None else cwd !! name.
Proof.
  intros Hnd. revert cwd. induction Hnd as [|f rest Hf Hnd IH]; intros cwd Hin.
  - exists cwd. split; [done|]. intros name.
    by rewrite decide_False by apply not_elem_of_nil.
  - destruct (Hin f) as [v Hv]; [by left|].
    destruct (IH (delete f cwd)) as (cwd' & Hrun & Hlook).
    { intros g Hg. rewrite lookup_delete_ne; [apply Hin; by right|].
      by intros ->. }
    exists cwd'. split.
    + cbn [remove_each]. unfold os_remove. rewrite Hv. exact Hrun.
    + intros name. rewrite Hlook.
      destruct (decide (name = f)) as [->|Hne].
      * rewrite lookup_delete_eq.
        rewrite (decide_True (P := f ∈ f :: rest)) by (by left).
        by destruct (decide (f ∈ rest)).
      * rewrite lookup_delete_ne by done.
        destruct (decide (name ∈ rest)) as [Hr|Hr].
        -- by rewrite (decide_True (P := name ∈ f :: rest)) by (by right).
        -- rewrite (decide_False (P := name ∈ f :: rest)); [done|].
           by intros [?|?]%elem_of_cons.
Qed.

(** What cleanup leaves behind in a directory of regular files that may
    be removed: it completes, every entry that matches one of the two
    patterns is gone, every other entry is as it was. *)
Lemma cleanup_lookup cwd :
  exists cwd', cleanup cwd = Some cwd'
    /\ (forall name, is_profile_name name \/ is_test_binary_name name ->
          cwd' !! name = None)
    /\ (forall name, ~ is_profile_name name -> ~ is_test_binary_name name ->
          cwd' !! name = cwd !! name).
Proof.
  destruct (remove_each_lookup (glob "cpuprofile*.pprof" cwd) cwd)
    as (cwd1 & Hrun1 & Hlook1).
  { apply NoDup_glob. }
  { intros f Hf. by apply In_glob_profile in Hf as [? _]. }
  destruct (remove_each_lookup (glob "*.test" cwd1) cwd1)
    as (cwd2 & Hrun2 & Hlook2).
  { apply NoDup_glob. }
  { intros f Hf. by apply In_glob_test in Hf as [? _]. }
  exists cwd2. split; [|split].
  - unfold cleanup. rewrite Hrun1. exact Hrun2.
  - intros name Hsel. rewrite Hlook2.
    destruct (decide (name ∈ glob "*.test" cwd1)) as [|Hn2]; [done|].
    rewrite Hlook1.
    destruct (decide (name ∈ glob "cpuprofile*.pprof" cwd)) as [|Hn1]; [done|].
    destruct (cwd !! name) as [v|] eqn:Hv; [|done]. exfalso.
    destruct Hsel as [Hsel|Hsel].
    + apply Hn1, In_glob_profile. by rewrite Hv.
    + apply Hn2, In_glob_test. split; [|done]. rewrite Hlook1.
      rewrite decide_False by done. by rewrite Hv.
  - intros name Hp Ht. rewrite Hlook2, decide_False, Hlook1, decide_False; [done|..].
    + rewrite In_glob_profile. tauto.
    + rewrite In_glob_test. tauto.
Qed.

End Cleanup.

Section CleanupClaims.

Import Pgo.



(** C5.  In a directory that holds exactly [cpuprofile.pprof],
    [cpuprofile-cmd__server.pprof], [cpuprofile-merged.pprof],
    [server.test] and [important.txt], whatever they contain, cleanup
    removes the first four and leaves [important.txt] as it was. *)
Theorem cleanup_full_scenario (c1 c2 c3 c4 c5 : string) :
  cleanup {[ "cpuprofile.pprof" := c1;
             "cpuprofile-cmd__server.pprof" := c2;
             "cpuprofile-merged.pprof" := c3;
             "server.test" := c4;
             "important.txt" := c5 ]}
  = Some {[ "important.txt" := c5 ]}.
Proof. vm_compute. reflexivity. Qed.

(** The two tests of the patterns. *)
Example pprof_glob_pattern :
  glob "cpuprofile*.pprof"
    {[ "cpuprofile.pprof" := ""; "cpuprofile-cmd__server.pprof" := "";
       "cpuprofile-merged.pprof" := ""; "other.pprof" := "" ]}
  ≡ₚ ["cpuprofile.pprof"; "cpuprofile-cmd__server.pprof"; "cpuprofile-merged.pprof"].
Proof. apply (bool_decide_unpack _). by vm_compute. Qed.

Example test_binary_glob_pattern :
  glob "*.test" {[ "server.test" := ""; "inbound.test" := ""; "not_a_test.txt" := "" ]}
  ≡ₚ ["server.test"; "inbound.test"].
Proof. apply (bool_decide_unpack _). by vm_compute. Qed.

End CleanupClaims.

(* ===================================================================== *)
(** * The benchmark command and the command runner *)
(* ===================================================================== *)

Section Commands.

Import Pgo.

(** *** The two patterns *)

(** [^$] matches the empty text and a lone newline, nothing else; a test
    name is neither. *)
Lemma run_pattern_matches name :
  re_match "^$" name = true
  <-> name = EmptyString \/ name = String newline EmptyString.
Proof.
  unfold re_match. simpl. destruct name as [|c [|d rest]]; simpl.
  - split; [by left|done].
  - destruct (decide (c = newline)) as [->|Hc].
    + split; [by right|done].
    + split; [done|]. intros [?|[= ?]]; done.
  - split; [done|]. by intros [?|?].
Qed.

(** [.] matches every text that starts with a character other than a
    newline, so every benchmark name. *)
Lemma bench_pattern_matches name :
  re_match "." name = true
  <-> exists c rest, name = String c rest /\ c <> newline.
Proof.
  unfold re_match. simpl. destruct name as [|c rest].
  - split; [done|]. by intros (? & ? & ? & _).
  - destruct (decide (c = newline)) as [->|Hc].
    + split; [done|]. by intros (? & ? & [= <- _] & ?).
    + split; [eauto|done].
Qed.

(** The example of [test_benchmark_skips_unit_tests]. *)
Example run_pattern_examples :
  re_match "^$" "" = true /\ re_match "^$" "TestSomething" = false.
Proof. split; reflexivity. Qed.

(** *** The command *)

(** The test builds its file name with forward slashes only; for a
    package path without backslash that is the unit's artifact name. *)
Lemma replace_char_absent a new s :
  has_char a s = false -> replace (String a EmptyString) new s = s.
Proof.
  induction s as [|c s IH]; [done|]. cbn [has_char]. intros H.
  rewrite replace_char_cons.
  destruct (decide (a = c)); [done|]. by rewrite IH.
Qed.

Lemma has_char_replace_char a b new s :
  has_char a new = false ->
  has_char a (replace (String b EmptyString) new s) = true -> has_char a s = true.
Proof.
  intros Hnew. induction s as [|c s IH]; [done|].
  rewrite replace_char_cons, has_char_app. simpl.
  destruct (decide (b = c)), (decide (a = c)); try done.
  - by rewrite Hnew.
  - simpl. by rewrite decide_False by done.
Qed.

Lemma test_output_file_agrees pkg :
  has_char "\" pkg = false -> test_output_file pkg = output_file pkg.
Proof.
  intros H. unfold test_output_file, output_file, suffix.
  rewrite (replace_char_absent "\"); [done|].
  destruct (has_char "\" (replace "/" "__" pkg)) eqn:E; [|done].
  apply has_char_replace_char in E; [congruence|done].
Qed.

Example test_benchmark_command_structure :
  benchmark_command "cmd/server" (test_output_file "cmd/server")
  = profiler_command "cmd/server"
  /\ profiler_command "cmd/server"
     = [ "go"; "test"; "./cmd/server/..."; "-run=^$"; "-bench=.";
         "-benchtime=10s"; "-cpuprofile=cpuprofile-cmd__server.pprof";
         "-pgo=off" ].
Proof. split; reflexivity. Qed.

(** C6.  For every unit the benchmark command carries [-run=^$], a
    pattern no test name matches, [-bench=.], which every benchmark name
    matches, [-pgo=off], and [-cpuprofile=] followed by the unit's
    artifact name [cpuprofile-<id'>.pprof]. *)
Theorem profiler_command_flags (unit : string) :
  In "-run=^$" (profiler_command unit)
  /\ In "-bench=." (profiler_command unit)
  /\ In "-pgo=off" (profiler_command unit)
  /\ In ("-cpuprofile=" +:+ output_file unit) (profiler_command unit)
  /\ output_file unit = "cpuprofile-" +:+ substitute_separators unit +:+ ".pprof"
  /\ (forall rest, re_match "^$" ("Test" +:+ rest) = false)
  /\ (forall rest, re_match "." ("Benchmark" +:+ rest) = true).
Proof.
  unfold profiler_command, benchmark_command. simpl.
  repeat split; try tauto.
  apply output_file_artifact_filename.
Qed.

(** *** CommandRunner *)

(** C1.  With [enforceSuccess] a command whose process exits with a
    non-zero status [n] terminates the whole process with status [n]:
    the call neither returns nor fails otherwise, and the command was
    started exactly once. *)
Theorem run_command_failure_exits
    (commandSpec : command_spec) (useShellInterpretation : bool)
    (m : machine) (n : Z) :
  n <> 0%Z ->
  exit_status m (length (spawned m)) commandSpec = n ->
  run_command commandSpec useShellInterpretation true m
  = (Terminated n,
     {| exit_status := exit_status m;
        spawned := spawned m ++ [(commandSpec, useShellInterpretation)] |}).
Proof.
  intros Hn Hexit. unfold run_command, spawn. rewrite Hexit.
  by destruct (Z.eqb_spec n 0).
Qed.

Lemma run_command_failure_exits_witness :
  run_command (Argv ["false"]) false true
    {| exit_status := fun _ _ => 1%Z; spawned := [] |}
  = (Terminated 1,
     {| exit_status := fun _ _ => 1%Z; spawned := [(Argv ["false"], false)] |}).
Proof.
  apply (run_command_failure_exits (Argv ["false"]) false
           {| exit_status := fun _ _ => 1%Z; spawned := [] |} 1%Z).
  - discriminate.
  - reflexivity.
Defined.

(** Without [enforceSuccess] the failing status is handed back. *)
Lemma run_command_check_false commandSpec useShellInterpretation m :
  fst (run_command commandSpec useShellInterpretation false m)
  = Returned (exit_status m (length (spawned m)) commandSpec).
Proof. reflexivity. Qed.

End Commands.

(* ===================================================================== *)
(** * Replacing a pattern that cannot overlap itself *)
(* ===================================================================== *)

Section Unbordered.

Implicit Types (s t u v p old new : string).

Lemma startswith_shorter p s t :
  startswith p (s +:+ t) = true -> String.length p <= String.length s ->
  startswith p s = true.
Proof.
  revert s. induction p as [|a p IH]; intros [|b s]; simpl; try done; [lia|].
  rewrite ?app_cons. simpl. destruct (decide (a = b)); [|done].
  intros H Hlen. apply IH; [done|lia].
Qed.

(** Two ways to split one text, the first piece of one no longer than the
    first piece of the other. *)
Lemma app_eq_app_le u x p t :
  u +:+ x = p +:+ t -> String.length u <= String.length p ->
  p = u +:+ drop (String.length u) p /\ x = drop (String.length u) p +:+ t.
Proof.
  revert p. induction u as [|c u IH]; intros p H Hlen.
  - by rewrite app_empty_l in *.
  - destruct p as [|d p]; simpl in Hlen; [lia|].
    rewrite !app_cons in H. injection H as -> H.
    destruct (IH p H) as [Hp Hx]; [lia|].
    simpl. rewrite app_cons. by rewrite <- Hp.
Qed.

(** An occurrence of [p] that starts inside the text before another
    occurrence, and reaches into it, shows a border of [p]. *)
Lemma overlap_border p u v :
  startswith p (u +:+ p +:+ v) = true ->
  String.length u < String.length p ->
  startswith (drop (String.length u) p) p = true.
Proof.
  intros [t Ht]%startswith_spec Hlen.
  destruct (app_eq_app_le u (p +:+ v) p t Ht) as [_ H]; [lia|].
  apply (startswith_shorter _ p v).
  - rewrite H. apply startswith_app.
  - rewrite length_drop. lia.
Qed.

Lemma unbordered_no_overlap p u v :
  unbordered p = true ->
  startswith p (u +:+ p +:+ v) = true ->
  u = EmptyString \/ String.length p <= String.length u.
Proof.
  intros Hp Hs. destruct u as [|c u]; [by left|right].
  destruct (decide (String.length p <= String.length (String c u))) as [|Hlt]; [done|].
  exfalso. apply overlap_border in Hs; [|lia].
  unfold unbordered in Hp. rewrite forallb_forall in Hp.
  specialize (Hp (String.length (String c u))). rewrite Hs in Hp.
  enough (false = true) by done. apply Hp, in_seq. simpl in *. lia.
Qed.

(** The scan around an occurrence: what comes before it and what comes
    after it are scanned on their own, and the occurrence is replaced. *)
Lemma replace_scan_occurrence old new u v :
  old <> EmptyString -> unbordered old = true ->
  replace_scan old new 0 (u +:+ old +:+ v)
  = replace_scan old new 0 u +:+ new +:+ replace_scan old new 0 v.
Proof.
  intros Hne Hub.
  induction u as [u IH] using (induction_ltof1 _ String.length).
  unfold ltof in IH. destruct u as [|c u'] eqn:Hu.
  - rewrite !app_empty_l, replace_scan_hit by (done || apply startswith_app).
    by rewrite drop_app_length.
  - rewrite <- Hu in *.
    destruct (startswith old (u +:+ old +:+ v)) eqn:Hs.
    + destruct (unbordered_no_overlap old u v Hub Hs) as [->|Hlen]; [by subst|].
      assert (startswith old u = true) as Hsu by by apply (startswith_shorter _ _ (old +:+ v)).
      rewrite (replace_scan_hit old new (u +:+ _)), (replace_scan_hit old new u) by done.
      rewrite drop_app_le by done.
      rewrite IH.
      * by rewrite app_assoc3.
      * rewrite length_drop. subst u. destruct old; simpl in *; [done|lia].
    + subst u. rewrite app_cons in *.
      rewrite replace_scan_miss by done.
      rewrite IH by (simpl; lia).
      rewrite replace_scan_miss; [done|].
      destruct (startswith old (String c u')) eqn:E; [|done].
      apply (startswith_app_r _ _ (old +:+ v)) in E. rewrite app_cons in E. congruence.
Qed.

Lemma replace_occurrence old new u v :
  old <> EmptyString -> unbordered old = true ->
  replace old new (u +:+ old +:+ v)
  = replace old new u +:+ new +:+ replace old new v.
Proof.
  intros Hne Hub. unfold replace. destruct old; [done|].
  by apply replace_scan_occurrence.
Qed.

Lemma replace_absent old new s :
  old <> EmptyString -> contains old s = false -> replace old new s = s.
Proof.
  intros Hne H. unfold replace. destruct old; [done|].
  by apply replace_scan_absent.
Qed.

(** [replace] does what the specification's [Replaced] says, and for a
    pattern without border it is the only text that does. *)
Lemma replace_Replaced old new s :
  old <> EmptyString -> unbordered old = true ->
  Secret.Replaced old new s (replace old new s).
Proof.
  intros Hne Hub.
  induction s as [s IH] using (induction_ltof1 _ String.length).
  unfold ltof in IH. destruct (contains old s) eqn:Hc.
  - apply contains_spec in Hc as (u & v & ->).
    rewrite replace_occurrence by done.
    assert (0 < String.length old) by (destruct old; simpl; [done|lia]).
    constructor; apply IH; rewrite !length_app; lia.
  - rewrite replace_absent by done. by constructor.
Qed.

Lemma Replaced_replace old new s t :
  old <> EmptyString -> unbordered old = true ->
  Secret.Replaced old new s t -> t = replace old new s.
Proof.
  intros Hne Hub. induction 1 as [s Hs|u v u' v' _ -> _ ->].
  - by rewrite replace_absent.
  - by rewrite replace_occurrence.
Qed.

End Unbordered.

(* ===================================================================== *)
(** * Secret rotation *)
(* ===================================================================== *)

Section SecretRotation.

Import Secret.

Implicit Types (w : world) (path secret text : string) (f : file).

Lemma PLACEHOLDER_nonempty : PLACEHOLDER <> EmptyString.
Proof. done. Qed.

(** No end of [CHANGE_ME_LOCAL_SECRET] is a beginning of it. *)
Lemma PLACEHOLDER_unbordered : unbordered PLACEHOLDER = true.
Proof. reflexivity. Qed.

(** *** The paths through [replace_placeholder] *)

Lemma replace_placeholder_missing path secret w :
  files w !! path = None ->
  replace_placeholder path secret w = (Ok tt, w).
Proof.
  intros H. unfold replace_placeholder, mbind, io_bind, bind, path_exists.
  rewrite H. by rewrite bool_decide_false by (by intros [? ?]).
Qed.

Lemma replace_placeholder_unreadable path secret w f msg :
  files w !! path = Some f -> read_error f = Some msg ->
  replace_placeholder path secret w
  = print ("Warning: Could not read " +:+ path +:+ ": " +:+ msg) w.
Proof.
  intros H Hr. unfold replace_placeholder, mbind, io_bind, bind, path_exists.
  rewrite H, bool_decide_true by eauto. simpl.
  unfold try_except_IOError, read_text. by rewrite H, Hr.
Qed.

Lemma replace_placeholder_no_placeholder path secret w f :
  files w !! path = Some f -> read_error f = None ->
  contains PLACEHOLDER (content f) = false ->
  replace_placeholder path secret w = (Ok tt, w).
Proof.
  intros H Hr Hc. unfold replace_placeholder, mbind, io_bind, bind, path_exists.
  rewrite H, bool_decide_true by eauto. simpl.
  unfold try_except_IOError at 1. unfold read_text. by rewrite H, Hr, Hc.
Qed.

Lemma replace_placeholder_unwritable path secret w f msg :
  files w !! path = Some f -> read_error f = None ->
  contains PLACEHOLDER (content f) = true ->
  write_error f = Some msg ->
  replace_placeholder path secret w
  = print ("Error writing to " +:+ path +:+ ": " +:+ msg) w.
Proof.
  intros H Hr Hc Hw. unfold replace_placeholder, mbind, io_bind, bind, path_exists.
  rewrite H, bool_decide_true by eauto. simpl.
  unfold try_except_IOError at 1. unfold read_text. rewrite H, Hr, Hc. simpl.
  unfold try_except_IOError, write_text. by rewrite H, Hw.
Qed.

Lemma replace_placeholder_written path secret w f :
  files w !! path = Some f -> read_error f = None ->
  contains PLACEHOLDER (content f) = true ->
  write_error f = None ->
  replace_placeholder path secret w
  = print ("Updated secret in: " +:+ path)
      (set_files w
         (<[path := with_content f (replace PLACEHOLDER secret (content f))]>
            (files w))).
Proof.
  intros H Hr Hc Hw. unfold replace_placeholder, mbind, io_bind, bind, path_exists.
  rewrite H, bool_decide_true by eauto. simpl.
  unfold try_except_IOError at 1. unfold read_text. rewrite H, Hr, Hc. simpl.
  unfold try_except_IOError, write_text. rewrite H, Hw.
  unfold print. reflexivity.
Qed.

Lemma print_files line w : files (print line w).2 = files w.
Proof. reflexivity. Qed.

Lemma print_ok line w : (print line w).1 = Ok tt.
Proof. reflexivity. Qed.

(** At the level of text, where reading and writing raise nothing but
    [IOError], the call returns normally. *)
Lemma replace_placeholder_returns path secret w :
  (replace_placeholder path secret w).1 = Ok tt.
Proof.
  destruct (files w !! path) as [f|] eqn:H.
  2: by rewrite replace_placeholder_missing.
  destruct (read_error f) as [msg|] eqn:Hr.
  1: by erewrite replace_placeholder_unreadable.
  destruct (contains PLACEHOLDER (content f)) eqn:Hc.
  2: by erewrite replace_placeholder_no_placeholder.
  destruct (write_error f) as [msg|] eqn:Hw.
  - by erewrite replace_placeholder_unwritable.
  - by erewrite replace_placeholder_written.
Qed.

(** The call touches no file but the one at [path]. *)
Lemma replace_placeholder_other path secret w other :
  other <> path ->
  files (replace_placeholder path secret w).2 !! other = files w !! other.
Proof.
  intros Hne. destruct (files w !! path) as [f|] eqn:H.
  2: by rewrite replace_placeholder_missing.
  destruct (read_error f) as [msg|] eqn:Hr.
  1: by erewrite replace_placeholder_unreadable.
  destruct (contains PLACEHOLDER (content f)) eqn:Hc.
  2: by erewrite replace_placeholder_no_placeholder.
  destruct (write_error f) as [msg|] eqn:Hw.
  - by erewrite replace_placeholder_unwritable.
  - erewrite replace_placeholder_written by done.
    rewrite print_files. simpl. by rewrite lookup_insert_ne.
Qed.

(** The file at [path] changes only when it holds the placeholder. *)
Lemma replace_placeholder_changes path secret w :
  files (replace_placeholder path secret w).2 <> files w ->
  exists f, files w !! path = Some f
    /\ read_error f = None /\ write_error f = None
    /\ contains PLACEHOLDER (content f) = true.
Proof.
  destruct (files w !! path) as [f|] eqn:H.
  2: by rewrite replace_placeholder_missing.
  destruct (read_error f) as [msg|] eqn:Hr.
  1: by erewrite replace_placeholder_unreadable.
  destruct (contains PLACEHOLDER (content f)) eqn:Hc.
  2: by erewrite replace_placeholder_no_placeholder.
  destruct (write_error f) as [msg|] eqn:Hw.
  - by erewrite replace_placeholder_unwritable.
  - eauto.
Qed.

End SecretRotation.

Section ReplacePlaceholderClaims.

Import Secret.

Implicit Types (w : world) (path secret text : string) (f : file).

Lemma replace_placeholder_at path secret w f :
  files w !! path = Some f -> read_error f = None -> write_error f = None ->
  files (replace_placeholder path secret w).2 !! path
  = Some (with_content f (replace PLACEHOLDER secret (content f))).
Proof.
  intros H Hr Hw. destruct (contains PLACEHOLDER (content f)) eqn:Hc.
  - erewrite replace_placeholder_written by done.
    rewrite print_files. simpl. by rewrite lookup_insert_eq.
  - erewrite replace_placeholder_no_placeholder by done.
    rewrite replace_absent by done. cbn [snd]. rewrite H. by destruct f.
Qed.

(** The tests of the replacement, on the text level. *)
Example replace_examples :
  replace PLACEHOLDER "MyNewSecret123" "SECRET=CHANGE_ME_LOCAL_SECRET"
  = "SECRET=MyNewSecret123"
  /\ replace PLACEHOLDER "ReplacedSecret"
       "{secret: CHANGE_ME_LOCAL_SECRET, other: CHANGE_ME_LOCAL_SECRET}"
     = "{secret: ReplacedSecret, other: ReplacedSecret}"
  /\ replace PLACEHOLDER "secret" "" = "".
Proof. repeat split; reflexivity. Qed.

(** C10.  When reading an existing file raises an [IOError], the call
    returns normally, leaves every file as it was and prints a warning. *)
Theorem replace_placeholder_read_error w path secret f msg :
  files w !! path = Some f ->
  read_error f = Some msg ->
  (replace_placeholder path secret w).1 = Ok tt
  /\ files (replace_placeholder path secret w).2 = files w
  /\ stdout (replace_placeholder path secret w).2
     = stdout w ++ ["Warning: Could not read " +:+ path +:+ ": " +:+ msg].
Proof.
  intros H Hr. by erewrite replace_placeholder_unreadable by done.
Qed.

Lemma replace_placeholder_read_error_witness :
  (replace_placeholder ENV_PATH "secret" locked_world).1 = Ok tt
  /\ files (replace_placeholder ENV_PATH "secret" locked_world).2
     = files locked_world
  /\ stdout (replace_placeholder ENV_PATH "secret" locked_world).2
     = stdout locked_world
       ++ ["Warning: Could not read " +:+ ENV_PATH +:+ ": " +:+ "Permission denied"].
Proof.
  apply (replace_placeholder_read_error locked_world ENV_PATH "secret"
           {| content := "SECRET=CHANGE_ME_LOCAL_SECRET";
              read_error := Some "Permission denied";
              write_error := None |} "Permission denied").
  - reflexivity.
  - reflexivity.
Defined.

End ReplacePlaceholderClaims.

Section Rotation.

Import Secret.

Implicit Types (w : world) (path secret text : string) (f : file).

(** *** [generate_secret] *)

(** Every position of the alphabet holds a letter or a digit. *)
Lemma ALPHABET_alnum i :
  i < 62 -> is_alnum (default "a"%char (String.get i ALPHABET)) = true.
Proof.
  intros Hi.
  assert (forallb (fun i => is_alnum (default "a"%char (String.get i ALPHABET)))
                  (seq 0 62) = true) as Hall by (by vm_compute).
  rewrite forallb_forall in Hall. apply Hall, in_seq. lia.
Qed.

Lemma choice_ALPHABET w :
  exists c,
    choice ALPHABET w
    = (Ok c, {| files := files w; stdout := stdout w;
                tape := tape w; drawn := S (drawn w) |})
    /\ is_alnum c = true.
Proof.
  exists (default "a"%char (String.get (tape w (drawn w) mod 62) ALPHABET)).
  split; [reflexivity|]. apply ALPHABET_alnum.
  apply Nat.mod_upper_bound. lia.
Qed.

(** The secret has the length asked for and is alphanumeric; generating
    it cannot fail and only consumes entropy. *)
Lemma generate_chars_spec n w :
  exists secret,
    generate_chars n w
    = (Ok secret, {| files := files w; stdout := stdout w;
                     tape := tape w; drawn := drawn w + n |})
    /\ String.length secret = n
    /\ all_chars is_alnum secret = true.
Proof.
  revert w. induction n as [|n IH]; intros w.
  - exists EmptyString. rewrite Nat.add_0_r. by destruct w.
  - destruct (choice_ALPHABET w) as (c & Hc & Hal).
    destruct (IH {| files := files w; stdout := stdout w;
                    tape := tape w; drawn := S (drawn w) |})
      as (rest & Hrest & Hlen & Hrest_al).
    exists (String c rest). split; [|split].
    + cbn [generate_chars]. unfold mbind, io_bind, bind.
      rewrite Hc, Hrest. simpl. do 3 f_equal. lia.
    + simpl. by rewrite Hlen.
    + simpl. by rewrite Hal, Hrest_al.
Qed.

Lemma alnum_no_underscore s :
  all_chars is_alnum s = true -> has_char "_" s = false.
Proof.
  induction s as [|c s IH]; [done|]. simpl.
  intros [Hc Hs]%andb_true_iff.
  destruct (decide ("_"%char = c)) as [<-|]; [done|]. by apply IH.
Qed.

(** A text without underscore holds no placeholder. *)
Lemma no_underscore_no_placeholder text :
  has_char "_" text = false -> contains PLACEHOLDER text = false.
Proof. by apply contains_has_char. Qed.

(** *** [main] *)

(** A file without placeholder survives a call for any path. *)
Lemma replace_placeholder_keeps path secret w other f :
  files w !! other = Some f ->
  contains PLACEHOLDER (content f) = false ->
  files (replace_placeholder path secret w).2 !! other = Some f.
Proof.
  intros H Hc. destruct (decide (other = path)) as [->|Hne].
  - destruct (read_error f) as [msg|] eqn:Hr.
    + by erewrite replace_placeholder_unreadable.
    + by erewrite replace_placeholder_no_placeholder.
  - by rewrite replace_placeholder_other.
Qed.

(** One run of the script at the level of text: it returns, and the
    files are those left by the two calls of [replace_placeholder] with
    one fresh 32-character alphanumeric secret. *)
Lemma main_run w :
  exists secret w0,
    main w
    = (Ok tt,
       (print "Secret rotation complete."
          (replace_placeholder REALM_PATH secret
             (replace_placeholder ENV_PATH secret w0).2).2).2)
    /\ String.length secret = 32
    /\ all_chars is_alnum secret = true
    /\ files w0 = files w.
Proof.
  destruct (generate_chars_spec 32 (print "Starting local secret rotation..." w).2)
    as (secret & Hgen & Hlen & Hal).
  exists secret. eexists.
  split; [|split; [done|split; [done|]]].
  - unfold main, mbind, io_bind, bind.
    change (generate_secret 32) with (generate_chars 32).
    destruct (print "Starting local secret rotation..." w) as [r0 wa] eqn:E0.
    injection E0 as <- <-. cbn [snd] in Hgen. rewrite Hgen.
    match goal with |- context [print ("Generated new secret: " +:+ secret) ?wb] =>
      destruct (print ("Generated new secret: " +:+ secret) wb) as [rb wc] eqn:Eb
    end.
    injection Eb as <- Eb.
    pose proof (replace_placeholder_returns ENV_PATH secret wc) as H1.
    destruct (replace_placeholder ENV_PATH secret wc) as [r1 w2] eqn:E1.
    cbn [fst] in H1. subst r1.
    pose proof (replace_placeholder_returns REALM_PATH secret w2) as H2.
    destruct (replace_placeholder REALM_PATH secret w2) as [r2 w3] eqn:E2.
    cbn [fst] in H2. subst r2.
    rewrite <- Eb in E1. rewrite E1. cbn [snd]. rewrite E2. reflexivity.
  - reflexivity.
Qed.

End Rotation.

Section RotationScenario.

Import Secret.

Implicit Types (w : world) (path secret text : string) (f : file).

Lemma rotated_text secret :
  replace PLACEHOLDER secret "SECRET=CHANGE_ME_LOCAL_SECRET" = "SECRET=" +:+ secret.
Proof.
  change "SECRET=CHANGE_ME_LOCAL_SECRET"
    with ("SECRET=" +:+ PLACEHOLDER +:+ EmptyString).
  rewrite replace_occurrence
    by (apply PLACEHOLDER_nonempty || apply PLACEHOLDER_unbordered).
  change (replace PLACEHOLDER secret "SECRET=") with "SECRET=".
  change (replace PLACEHOLDER secret EmptyString) with EmptyString.
  by rewrite app_empty_r.
Qed.

Lemma rotated_text_no_placeholder secret :
  all_chars is_alnum secret = true ->
  contains PLACEHOLDER ("SECRET=" +:+ secret) = false.
Proof.
  intros Hal. apply no_underscore_no_placeholder.
  rewrite has_char_app. by rewrite (alnum_no_underscore secret Hal).
Qed.

(** The two calls of [main], seen from one of its two files. *)
Lemma two_calls_at path secret w f :
  path = ENV_PATH \/ path = REALM_PATH ->
  files w !! path = Some f -> read_error f = None -> write_error f = None ->
  files (replace_placeholder REALM_PATH secret
           (replace_placeholder ENV_PATH secret w).2).2 !! path
  = Some (with_content f (replace PLACEHOLDER secret (content f))).
Proof.
  intros [->| ->] H Hr Hw.
  - rewrite replace_placeholder_other by done.
    by apply replace_placeholder_at.
  - apply replace_placeholder_at; [|done..].
    by rewrite replace_placeholder_other.
Qed.

Lemma two_calls_keep path secret w f :
  files w !! path = Some f ->
  contains PLACEHOLDER (content f) = false ->
  files (replace_placeholder REALM_PATH secret
           (replace_placeholder ENV_PATH secret w).2).2 !! path
  = Some f.
Proof.
  intros H Hc. apply replace_placeholder_keeps; [|done].
  by apply replace_placeholder_keeps.
Qed.

(** C9.  A run of the script on a file that holds
    [SECRET=CHANGE_ME_LOCAL_SECRET] leaves [SECRET=] followed by 32
    alphanumeric characters in it, and a second run leaves the file as
    the first run left it. *)
Theorem rotation_scenario w path :
  path = ENV_PATH \/ path = REALM_PATH ->
  files w !! path = Some (new_file "SECRET=CHANGE_ME_LOCAL_SECRET") ->
  exists secret w1 w2,
    main w = (Ok tt, w1)
    /\ String.length secret = 32
    /\ all_chars is_alnum secret = true
    /\ files w1 !! path = Some (new_file ("SECRET=" +:+ secret))
    /\ main w1 = (Ok tt, w2)
    /\ files w2 !! path = files w1 !! path.
Proof.
  intros Hpath H.
  destruct (main_run w) as (secret & w0 & Hmain & Hlen & Hal & Hfiles).
  assert (files (print "Secret rotation complete."
            (replace_placeholder REALM_PATH secret
               (replace_placeholder ENV_PATH secret w0).2).2).2 !! path
          = Some (new_file ("SECRET=" +:+ secret))) as Hfirst.
  { rewrite print_files.
    rewrite (two_calls_at path secret w0
               (new_file "SECRET=CHANGE_ME_LOCAL_SECRET") Hpath);
      [|by rewrite Hfiles|reflexivity|reflexivity].
    cbn [content new_file]. rewrite rotated_text. reflexivity. }
  destruct (main_run (print "Secret rotation complete."
             (replace_placeholder REALM_PATH secret
                (replace_placeholder ENV_PATH secret w0).2).2).2)
    as (secret' & w0' & Hmain' & _ & _ & Hfiles').
  eexists secret, _, _.
  split; [exact Hmain|]. split; [exact Hlen|]. split; [exact Hal|].
  split; [exact Hfirst|]. split; [exact Hmain'|].
  rewrite Hfirst, print_files.
  apply two_calls_keep.
  - rewrite Hfiles'. exact Hfirst.
  - apply rotated_text_no_placeholder, Hal.
Qed.

Lemma rotation_scenario_witness :
  exists secret w1 w2,
    main example_world = (Ok tt, w1)
    /\ String.length secret = 32
    /\ all_chars is_alnum secret = true
    /\ files w1 !! ENV_PATH = Some (new_file ("SECRET=" +:+ secret))
    /\ main w1 = (Ok tt, w2)
    /\ files w2 !! ENV_PATH = files w1 !! ENV_PATH.
Proof.
  apply (rotation_scenario example_world ENV_PATH).
  - left. reflexivity.
  - reflexivity.
Defined.

(** The run of the witness, computed. *)
Example rotation_example :
  content <$> files (main example_world).2 !! ENV_PATH
  = Some "SECRET=ahovCJQX4bipwDKRY5cjqxELSZ6dkryF".
Proof. vm_compute. reflexivity. Qed.

End RotationScenario.

(* ===================================================================== *)
(** * Further properties of the secret rotation *)
(* ===================================================================== *)

Section GenerateSecret.

Import Secret.

Implicit Types (w : world) (secret : string).

Lemma ALPHABET_member i :
  i < 62 -> has_char (default "a"%char (String.get i ALPHABET)) ALPHABET = true.
Proof.
  intros Hi.
  assert (forallb (fun i => has_char (default "a"%char (String.get i ALPHABET)) ALPHABET)
                  (seq 0 62) = true) as Hall by (by vm_compute).
  rewrite forallb_forall in Hall. apply Hall, in_seq. lia.
Qed.

Lemma choice_ALPHABET_draw w :
  choice ALPHABET w
  = (Ok (default "a"%char (String.get (tape w (drawn w) mod 62) ALPHABET)),
     {| files := files w; stdout := stdout w;
        tape := tape w; drawn := S (drawn w) |}).
Proof. reflexivity. Qed.

(** What [generate_chars] returns, character by character. *)
Lemma generate_chars_draws n w :
  exists secret,
    generate_chars n w
    = (Ok secret, {| files := files w; stdout := stdout w;
                     tape := tape w; drawn := drawn w + n |})
    /\ String.length secret = n
    /\ all_chars (fun c => has_char c ALPHABET) secret = true
    /\ forall i, i < n ->
         String.get i secret
         = String.get (tape w (drawn w + i) mod 62) ALPHABET.
Proof.
  revert w. induction n as [|n IH]; intros w.
  - exists EmptyString. rewrite Nat.add_0_r. destruct w. repeat split. lia.
  - destruct (IH {| files := files w; stdout := stdout w;
                    tape := tape w; drawn := S (drawn w) |})
      as (rest & Hrest & Hlen & Hmem & Hget).
    assert (tape w (drawn w) mod 62 < 62) as Hlt by (apply Nat.mod_upper_bound; lia).
    exists (String (default "a"%char (String.get (tape w (drawn w) mod 62) ALPHABET)) rest).
    split; [|split; [|split]].
    + cbn [generate_chars]. unfold mbind, io_bind, bind.
      rewrite choice_ALPHABET_draw, Hrest. simpl. do 3 f_equal. lia.
    + simpl. by rewrite Hlen.
    + cbn [all_chars]. by rewrite ALPHABET_member, Hmem.
    + intros [|i] Hi.
      * rewrite Nat.add_0_r. cbn [String.get].
        pose proof (ALPHABET_member _ Hlt) as Hm.
        destruct (String.get (tape w (drawn w) mod 62) ALPHABET) as [c|] eqn:E; [done|].
        exfalso. clear -E Hlt.
        assert (forallb (fun i => bool_decide (is_Some (String.get i ALPHABET)))
                        (seq 0 62) = true) as Hall by (by vm_compute).
        rewrite forallb_forall in Hall.
        specialize (Hall (tape w (drawn w) mod 62)).
        rewrite E in Hall. rewrite bool_decide_false in Hall by (by intros [? ?]).
        enough (false = true) by done. apply Hall, in_seq. lia.
      * cbn [String.get]. rewrite Hget by lia. cbn [tape drawn].
        do 3 f_equal. lia.
Qed.

(** X1.  [generate_secret] cannot fail: for every length, negative ones
    included, and every entropy source it returns a string of
    [max 0 length] characters, all taken from [ALPHABET]; it consumes one
    random number per character and leaves files and output alone. *)
Theorem generate_secret_length_and_alphabet (length : Z) w :
  exists secret,
    generate_secret length w
    = (Ok secret, {| files := files w; stdout := stdout w;
                     tape := tape w; drawn := drawn w + Z.to_nat length |})
    /\ Z.of_nat (String.length secret) = Z.max 0 length
    /\ all_chars (fun c => has_char c ALPHABET) secret = true.
Proof.
  destruct (generate_chars_draws (Z.to_nat length) w) as (secret & Hrun & Hlen & Hmem & _).
  exists secret. split; [exact Hrun|]. split; [|exact Hmem]. lia.
Qed.

(** The secret is read off the entropy: its [i]-th character is the
    character of [ALPHABET] at the position given by the [i]-th random
    number drawn, reduced modulo the 62 characters. *)
Lemma generate_secret_characters (length : Z) w :
  exists secret w',
    generate_secret length w = (Ok secret, w')
    /\ forall i, i < Z.to_nat length ->
         String.get i secret
         = String.get (tape w (drawn w + i) mod 62) ALPHABET.
Proof.
  destruct (generate_chars_draws (Z.to_nat length) w) as (secret & Hrun & _ & _ & Hget).
  eexists secret, _. split; [exact Hrun|exact Hget].
Qed.

Lemma alphabet_no_underscore s :
  all_chars (fun c => has_char c ALPHABET) s = true -> has_char "_" s = false.
Proof.
  induction s as [|c s IH]; [done|]. cbn [all_chars has_char].
  intros [Hc Hs]%andb_true_iff.
  destruct (decide ("_"%char = c)) as [<-|]; [done|]. by apply IH.
Qed.

(** X2.  A generated secret never contains an underscore, so it never
    contains the placeholder, whatever its length. *)
Theorem generate_secret_without_placeholder (length : Z) w :
  exists secret w',
    generate_secret length w = (Ok secret, w')
    /\ has_char "_" secret = false
    /\ contains PLACEHOLDER secret = false.
Proof.
  destruct (generate_chars_draws (Z.to_nat length) w) as (secret & Hrun & _ & Hmem & _).
  eexists secret, _. split; [exact Hrun|].
  pose proof (alphabet_no_underscore secret Hmem) as Hu.
  split; [exact Hu|]. by apply no_underscore_no_placeholder.
Qed.

End GenerateSecret.

Section ReplacePlaceholderMore.

Import Secret.

Implicit Types (w : world) (path secret text : string) (f : file).

Lemma world_eta w :
  {| files := files w; stdout := stdout w ++ []; tape := tape w; drawn := drawn w |} = w.
Proof. destruct w. simpl. by rewrite app_nil_r. Qed.

(** The world after a call, in one formula: either nothing happened to the
    files, or the file at [path] was rewritten and that was reported. *)
Lemma replace_placeholder_shape path secret w :
  exists fs lines,
    replace_placeholder path secret w
    = (Ok tt, {| files := fs; stdout := stdout w ++ lines;
                 tape := tape w; drawn := drawn w |})
    /\ length lines <= 1
    /\ (fs = files w
        \/ exists f, files w !! path = Some f
             /\ read_error f = None /\ write_error f = None
             /\ contains PLACEHOLDER (content f) = true
             /\ fs = <[path := with_content f (replace PLACEHOLDER secret (content f))]>
                       (files w)
             /\ lines = ["Updated secret in: " +:+ path]).
Proof.
  destruct (files w !! path) as [f|] eqn:H.
  2: { exists (files w), []. rewrite replace_placeholder_missing by done.
       rewrite world_eta. auto. }
  destruct (read_error f) as [msg|] eqn:Hr.
  1: { eexists (files w), [_]. erewrite replace_placeholder_unreadable by done.
       split; [reflexivity|]. simpl. auto. }
  destruct (contains PLACEHOLDER (content f)) eqn:Hc.
  2: { exists (files w), []. erewrite replace_placeholder_no_placeholder by done.
       rewrite world_eta. auto. }
  destruct (write_error f) as [msg|] eqn:Hw.
  - eexists (files w), [_]. erewrite replace_placeholder_unwritable by done.
    split; [reflexivity|]. simpl. auto.
  - eexists _, [_]. erewrite replace_placeholder_written by done.
    split; [reflexivity|]. split; [simpl; lia|]. right. exists f. auto 10.
Qed.

Lemma replace_placeholder_dom path secret w :
  dom (files (replace_placeholder path secret w).2) = dom (files w).
Proof.
  destruct (replace_placeholder_shape path secret w) as (fs & lines & -> & _ & Hfs).
  cbn [snd files]. destruct Hfs as [->|(f & H & _ & _ & _ & -> & _)]; [done|].
  rewrite dom_insert_L.
  assert (path ∈ dom (files w)) as Hin by (apply elem_of_dom; eauto).
  apply leibniz_equiv. intros x. rewrite elem_of_union, elem_of_singleton.
  split; [by intros [->|?]|by right].
Qed.

Lemma replace_placeholder_entropy path secret w :
  tape (replace_placeholder path secret w).2 = tape w
  /\ drawn (replace_placeholder path secret w).2 = drawn w.
Proof.
  by destruct (replace_placeholder_shape path secret w) as (fs & lines & -> & _).
Qed.

(** Replacing by another text moves a character that is absent from the
    result and from the new text out of the new result as well. *)
Lemma has_char_replace_transfer old new1 new2 c s :
  old <> EmptyString -> unbordered old = true ->
  has_char c (replace old new1 s) = false ->
  has_char c new2 = false ->
  has_char c (replace old new2 s) = false.
Proof.
  intros Hne Hub. induction s as [s IH] using (induction_ltof1 _ String.length).
  unfold ltof in IH. intros H1 H2.
  destruct (contains old s) eqn:Hc.
  - apply contains_spec in Hc as (u & v & ->).
    assert (0 < String.length old) by (destruct old; simpl; [done|lia]).
    rewrite replace_occurrence in H1 |- * by done.
    rewrite !has_char_app in H1 |- *.
    apply orb_false_elim in H1 as [Hu [_ Hv]%orb_false_elim].
    rewrite H2, !IH; try done; rewrite !length_app; lia.
  - rewrite replace_absent in H1 |- * by done. done.
Qed.

(** X5.  If neither the secret nor the text outside the placeholders holds
    an underscore, the rewritten file holds no placeholder, and a further
    call, with any secret, changes nothing at all. *)
Theorem replace_placeholder_consumes_placeholder w path secret f :
  files w !! path = Some f ->
  read_error f = None ->
  write_error f = None ->
  has_char "_" secret = false ->
  has_char "_" (replace PLACEHOLDER EmptyString (content f)) = false ->
  exists w1 f1,
    replace_placeholder path secret w = (Ok tt, w1)
    /\ files w1 !! path = Some f1
    /\ contains PLACEHOLDER (content f1) = false
    /\ forall secret', replace_placeholder path secret' w1 = (Ok tt, w1).
Proof.
  intros H Hr Hw Hs Htext.
  exists (replace_placeholder path secret w).2,
         (with_content f (replace PLACEHOLDER secret (content f))).
  assert (contains PLACEHOLDER (replace PLACEHOLDER secret (content f)) = false) as Hgone.
  { apply no_underscore_no_placeholder.
    by apply (has_char_replace_transfer PLACEHOLDER EmptyString secret). }
  pose proof (replace_placeholder_at path secret w f H Hr Hw) as Hat.
  split; [|split; [exact Hat|split; [exact Hgone|]]].
  - rewrite <- (replace_placeholder_returns path secret w).
    by destruct (replace_placeholder path secret w).
  - intros secret'.
    by apply (replace_placeholder_no_placeholder path secret' _ _ Hat).
Qed.

Lemma replace_placeholder_consumes_placeholder_witness :
  exists w1 f1,
    replace_placeholder ENV_PATH "MyNewSecret123" example_world = (Ok tt, w1)
    /\ files w1 !! ENV_PATH = Some f1
    /\ contains PLACEHOLDER (content f1) = false
    /\ forall secret', replace_placeholder ENV_PATH secret' w1 = (Ok tt, w1).
Proof.
  apply (replace_placeholder_consumes_placeholder example_world ENV_PATH
           "MyNewSecret123" (new_file "SECRET=CHANGE_ME_LOCAL_SECRET")).
  - reflexivity.
  - reflexivity.
  - reflexivity.
  - reflexivity.
  - reflexivity.
Defined.

(** Without the condition on underscores a replacement can put a new
    placeholder together from the secret and the text around it. *)
Example replace_can_rebuild_placeholder :
  replace PLACEHOLDER "SECRET" "CHANGE_ME_LOCAL_CHANGE_ME_LOCAL_SECRET"
  = PLACEHOLDER.
Proof. reflexivity. Qed.

End ReplacePlaceholderMore.

Section MainMore.

Import Secret.

Implicit Types (w : world) (path secret text : string) (f : file).

(** The world in which [main] calls [replace_placeholder] for the first
    time: the secret was generated and both lines were printed. *)
Lemma main_world w :
  exists secret,
    String.length secret = 32
    /\ all_chars (fun c => has_char c ALPHABET) secret = true
    /\ main w
       = (Ok tt,
          (print "Secret rotation complete."
             (replace_placeholder REALM_PATH secret
                (replace_placeholder ENV_PATH secret
                   {| files := files w;
                      stdout := (stdout w ++ ["Starting local secret rotation..."])
                                ++ ["Generated new secret: " +:+ secret];
                      tape := tape w;
                      drawn := drawn w + 32 |}).2).2).2).
Proof.
  destruct (generate_chars_draws 32 (print "Starting local secret rotation..." w).2)
    as (secret & Hgen & Hlen & Hmem & _).
  exists secret. split; [done|split; [done|]].
  unfold main, mbind, io_bind, bind.
  change (generate_secret 32) with (generate_chars 32).
  destruct (print "Starting local secret rotation..." w) as [r0 wa] eqn:E0.
  injection E0 as <- <-. cbn [snd] in Hgen. rewrite Hgen.
  cbn [print files stdout tape drawn].
  match goal with |- context [replace_placeholder ENV_PATH secret ?wc] =>
    pose proof (replace_placeholder_returns ENV_PATH secret wc) as H1;
    destruct (replace_placeholder ENV_PATH secret wc) as [r1 w2] eqn:E1
  end.
  cbn [fst] in H1. subst r1. cbn [snd].
  pose proof (replace_placeholder_returns REALM_PATH secret w2) as H2.
  destruct (replace_placeholder REALM_PATH secret w2) as [r2 w3] eqn:E2.
  cbn [fst] in H2. subst r2. reflexivity.
Qed.

(** X6.  When both local files can be read and written, one run puts one
    and the same fresh secret, 32 characters of [ALPHABET], into both:
    each file ends up with its placeholders replaced by that secret. *)
Theorem main_same_secret_in_both_files w fe fr :
  files w !! ENV_PATH = Some fe ->
  files w !! REALM_PATH = Some fr ->
  read_error fe = None -> write_error fe = None ->
  read_error fr = None -> write_error fr = None ->
  exists secret w1,
    main w = (Ok tt, w1)
    /\ String.length secret = 32
    /\ all_chars (fun c => has_char c ALPHABET) secret = true
    /\ files w1 !! ENV_PATH
       = Some (with_content fe (replace PLACEHOLDER secret (content fe)))
    /\ files w1 !! REALM_PATH
       = Some (with_content fr (replace PLACEHOLDER secret (content fr))).
Proof.
  intros He Hr Her Hew Hrr Hrw.
  destruct (main_world w) as (secret & Hlen & Hmem & Hmain).
  eexists secret, _. split; [exact Hmain|]. split; [exact Hlen|]. split; [exact Hmem|].
  rewrite print_files. split.
  - by apply two_calls_at; [left|..].
  - by apply two_calls_at; [right|..].
Qed.

Lemma main_same_secret_in_both_files_witness :
  exists secret w1,
    main synced_world = (Ok tt, w1)
    /\ String.length secret = 32
    /\ all_chars (fun c => has_char c ALPHABET) secret = true
    /\ files w1 !! ENV_PATH
       = Some (with_content (new_file "OIDC_CLIENT_SECRET=CHANGE_ME_LOCAL_SECRET")
                 (replace PLACEHOLDER secret
                    (content (new_file "OIDC_CLIENT_SECRET=CHANGE_ME_LOCAL_SECRET"))))
    /\ files w1 !! REALM_PATH
       = Some (with_content (new_file "{secret: CHANGE_ME_LOCAL_SECRET}")
                 (replace PLACEHOLDER secret
                    (content (new_file "{secret: CHANGE_ME_LOCAL_SECRET}")))).
Proof.
  apply (main_same_secret_in_both_files synced_world
           (new_file "OIDC_CLIENT_SECRET=CHANGE_ME_LOCAL_SECRET")
           (new_file "{secret: CHANGE_ME_LOCAL_SECRET}")).
  - vm_compute. reflexivity.
  - vm_compute. reflexivity.
  - reflexivity.
  - reflexivity.
  - reflexivity.
  - reflexivity.
Defined.

(** A file that is missing, or holds no placeholder, is the same after a
    call for any path. *)
Lemma replace_placeholder_keeps_lookup path secret w other :
  (files w !! other = None
   \/ exists f, files w !! other = Some f
        /\ contains PLACEHOLDER (content f) = false) ->
  files (replace_placeholder path secret w).2 !! other = files w !! other.
Proof.
  intros [Hnone|(f & H & Hc)].
  - rewrite Hnone. apply not_elem_of_dom.
    rewrite replace_placeholder_dom. by apply not_elem_of_dom.
  - rewrite H. by apply replace_placeholder_keeps.
Qed.

(** X7.  A run of the script neither creates nor deletes a file.  It
    leaves alone every file but [.env] and [.keycloak.json], and those two
    as well when they are missing or hold no placeholder.  It draws
    exactly 32 random numbers. *)
Theorem main_frame w :
  dom (files (main w).2) = dom (files w)
  /\ (forall path, path <> ENV_PATH -> path <> REALM_PATH ->
        files (main w).2 !! path = files w !! path)
  /\ (forall path,
        (files w !! path = None
         \/ exists f, files w !! path = Some f
              /\ contains PLACEHOLDER (content f) = false) ->
        files (main w).2 !! path = files w !! path)
  /\ tape (main w).2 = tape w
  /\ drawn (main w).2 = drawn w + 32.
Proof.
  destruct (main_world w) as (secret & _ & _ & ->). cbn [snd].
  rewrite print_files.
  split; [|split; [|split; [|split]]].
  - by rewrite !replace_placeholder_dom.
  - intros path H1 H2. by rewrite !replace_placeholder_other.
  - intros path Hpath.
    rewrite replace_placeholder_keeps_lookup.
    + by rewrite replace_placeholder_keeps_lookup.
    + by rewrite replace_placeholder_keeps_lookup.
  - cbn [print snd tape].
    rewrite (proj1 (replace_placeholder_entropy _ _ _)).
    by rewrite (proj1 (replace_placeholder_entropy _ _ _)).
  - cbn [print snd drawn].
    rewrite (proj2 (replace_placeholder_entropy _ _ _)).
    by rewrite (proj2 (replace_placeholder_entropy _ _ _)).
Qed.


End MainMore.

(* ===================================================================== *)
(** * Further properties of the profile tooling *)
(* ===================================================================== *)

Section ArtifactNamesMore.

Import Pgo.

Lemma substitute_separators_app s t :
  substitute_separators (s +:+ t) = substitute_separators s +:+ substitute_separators t.
Proof.
  induction s as [|c s IH]; [done|].
  rewrite app_cons. cbn [substitute_separators]. by rewrite IH, app_assoc3.
Qed.

Lemma substitute_separators_no_separator id :
  has_char "/" (substitute_separators id) = false
  /\ has_char "\" (substitute_separators id) = false.
Proof.
  induction id as [|c rest [IH1 IH2]]; [done|].
  cbn [substitute_separators]. rewrite !has_char_app, IH1, IH2, !orb_false_r.
  unfold substitute_char.
  destruct (decide (c = "/"%char)); [done|].
  destruct (decide (c = "\"%char)); [done|].
  simpl. by rewrite !decide_False by done.
Qed.

Lemma output_file_has_no_separator_aux pkg :
  has_char "/" (output_file pkg) = false
  /\ has_char "\" (output_file pkg) = false.
Proof.
  rewrite output_file_artifact_filename. unfold artifact_filename.
  destruct (substitute_separators_no_separator pkg) as [H1 H2].
  rewrite !has_char_app, H1, H2. done.
Qed.

(** X9.  An artifact name never contains a path separator, neither a
    forward slash nor a backslash, whatever the identifier. *)
Theorem output_file_has_no_separator (pkg : string) :
  has_char "/" (output_file pkg) = false
  /\ has_char "\" (output_file pkg) = false.
Proof. apply output_file_has_no_separator_aux. Qed.

Lemma substitute_char_separator c :
  c = "/"%char \/ c = "\"%char -> substitute_char c = "__".
Proof. by intros [-> | ->]. Qed.

Lemma substitute_separators_replace a b id :
  a = "/"%char \/ a = "\"%char -> b = "/"%char \/ b = "\"%char ->
  substitute_separators (replace (String a EmptyString) (String b EmptyString) id)
  = substitute_separators id.
Proof.
  intros Ha Hb. induction id as [|c rest IH]; [done|].
  rewrite replace_char_cons, substitute_separators_app, IH.
  cbn [substitute_separators]. f_equal.
  destruct (decide (a = c)) as [<-|];
    cbn [substitute_separators]; rewrite app_empty_r; [|done].
  by rewrite !substitute_char_separator.
Qed.

(** X10.  The two separators are interchangeable: writing an identifier
    with forward slashes instead of backslashes, or the other way round,
    gives the same artifact name. *)
Theorem output_file_separator_style (pkg : string) :
  output_file (replace "\" "/" pkg) = output_file pkg
  /\ output_file (replace "/" "\" pkg) = output_file pkg.
Proof.
  rewrite !output_file_artifact_filename. unfold artifact_filename.
  by rewrite !substitute_separators_replace by auto.
Qed.

Lemma has_char_replace_char_keeps a b new s :
  a <> b -> has_char a s = true ->
  has_char a (replace (String b EmptyString) new s) = true.
Proof.
  intros Hne. induction s as [|c s IH]; [done|].
  rewrite replace_char_cons, has_char_app. cbn [has_char].
  destruct (decide (a = c)) as [<-|Hac].
  - intros _. rewrite decide_False by done. simpl. by rewrite decide_True.
  - intros H. by rewrite IH, orb_true_r.
Qed.

(** X11.  The file name that the benchmark test builds, with forward
    slashes replaced only, is the unit's artifact name exactly for the
    identifiers without backslash. *)
Theorem test_output_file_agrees_iff (pkg : string) :
  test_output_file pkg = output_file pkg <-> has_char "\" pkg = false.
Proof.
  split; [|apply test_output_file_agrees].
  intros Heq. destruct (has_char "\" pkg) eqn:E; [|done].
  destruct (output_file_has_no_separator_aux pkg) as [_ Hno].
  rewrite <- Heq in Hno. unfold test_output_file in Hno.
  rewrite !has_char_app in Hno.
  rewrite (has_char_replace_char_keeps "\" "/" "__" pkg) in Hno by done.
  by rewrite orb_true_r in Hno.
Qed.

End ArtifactNamesMore.

Section CleanupMore.

Import Pgo.

Implicit Types (cwd : gmap string string) (name pkg : string).

Lemma output_file_is_profile_name pkg : is_profile_name (output_file pkg).
Proof. by exists ("-" +:+ suffix pkg). Qed.

Lemma fnmatchcase_merge_pattern name :
  fnmatchcase name merge_pattern = true
  <-> exists middle, name = "cpuprofile-" +:+ middle +:+ ".pprof".
Proof.
  unfold merge_pattern. split.
  - intros H.
    repeat (apply fnmatchcase_char in H as (? & -> & H); [|done..]).
    apply fnmatchcase_star_spec in H as (u & v & -> & H).
    apply fnmatchcase_literal in H as ->; [|done..]. by exists u.
  - intros [middle ->].
    repeat (rewrite app_cons; apply fnmatchcase_char; [done..|];
            eexists; split; [reflexivity|]).
    rewrite app_empty_l. apply fnmatchcase_star_spec.
    exists middle, ".pprof". split; [done|]. by apply fnmatchcase_literal.
Qed.

Lemma selected_dec name :
  (is_profile_name name \/ is_test_binary_name name)
  \/ (~ is_profile_name name /\ ~ is_test_binary_name name).
Proof.
  destruct (fnmatchcase name "cpuprofile*.pprof") eqn:E1.
  { left. left. by apply fnmatchcase_profile. }
  assert (~ is_profile_name name) as Hp.
  { intros H. apply fnmatchcase_profile in H. congruence. }
  destruct (fnmatchcase name "*.test") eqn:E2.
  - destruct (ishidden name) eqn:E3.
    + right. split; [done|]. intros [? _]. congruence.
    + left. right. split; [done|]. by apply fnmatchcase_test.
  - right. split; [done|]. intros [_ H]. apply fnmatchcase_test in H. congruence.
Qed.

(** X14.  Cleanup only removes: every file of the directory it leaves was
    in the directory before, with the same content. *)
Theorem cleanup_only_removes (cwd : gmap string string) :
  exists cwd', cleanup cwd = Some cwd' /\ cwd' ⊆ cwd.
Proof.
  destruct (cleanup_lookup cwd) as (cwd' & Hrun & Hgone & Hkept).
  exists cwd'. split; [done|]. apply map_subseteq_spec. intros name v Hv.
  destruct (selected_dec name) as [Hsel|[Hp Ht]].
  - rewrite Hgone in Hv by done. done.
  - by rewrite <- Hkept.
Qed.

End CleanupMore.

Section PatternsMore.

Import Pgo.

(** X17.  What the two patterns of the benchmark command match: [^$]
    matches the empty text and a lone newline and nothing else, so no test
    name; [.] matches exactly the texts that start with a character other
    than a newline, so every benchmark name. *)
Theorem benchmark_patterns :
  (forall name,
     re_match "^$" name = true
     <-> name = EmptyString \/ name = String newline EmptyString)
  /\ (forall name,
        re_match "." name = true
        <-> exists c rest, name = String c rest /\ c <> newline).
Proof. split; [apply run_pattern_matches|apply bench_pattern_matches]. Qed.

End PatternsMore.

(* ===================================================================== *)
(** * The text layer *)
(* ===================================================================== *)

Section CodecFacts.

Import Codec.

Implicit Types (b s t u v ch rest : string) (a c : ascii).

(** Facts about byte ranges are linear arithmetic on the byte's number. *)
Ltac bytes :=
  unfold lead4, lead3, lead2, continuation, is_ascii, byte_in in *;
  try (apply not_true_iff_false; intro);
  repeat match goal with
  | H : _ && _ = true |- _ => apply andb_true_iff in H as [? ?]
  | H : _ || _ = true |- _ => apply orb_true_iff in H as [?|?]
  | H : (_ <=? _) = true |- _ => apply Nat.leb_le in H
  end;
  repeat match goal with
  | |- _ && _ = true => apply andb_true_iff; split
  | |- (_ <=? _) = true => apply Nat.leb_le
  end;
  lia.

Lemma ascii_not_continuation c : is_ascii c = true -> continuation c = false.
Proof. intros H. bytes. Qed.

Lemma continuation_not_ascii c : continuation c = true -> is_ascii c = false.
Proof. intros H. bytes. Qed.

Lemma lead2_not_ascii c : lead2 c = true -> is_ascii c = false.
Proof. intros H. bytes. Qed.

Lemma lead3_first c0 c1 :
  lead3 c0 c1 = true -> is_ascii c0 = false /\ lead2 c0 = false.
Proof. intros H. split; bytes. Qed.

Lemma lead3_second c0 c1 : lead3 c0 c1 = true -> continuation c1 = true.
Proof. intros H. bytes. Qed.

Lemma lead4_first c0 c1 :
  lead4 c0 c1 = true
  -> is_ascii c0 = false /\ lead2 c0 = false /\ lead3 c0 c1 = false.
Proof. intros H. repeat split; bytes. Qed.

Lemma lead4_second c0 c1 : lead4 c0 c1 = true -> continuation c1 = true.
Proof. intros H. bytes. Qed.

Lemma CR_ascii : is_ascii CR = true.
Proof. reflexivity. Qed.

Lemma not_ascii_not_CR c : is_ascii c = false -> c <> CR.
Proof. intros H ->. done. Qed.

(** *** [utf8_valid] decides [WellFormed] *)

Lemma utf8_valid_char ch rest :
  is_char ch = true -> utf8_valid (ch +:+ rest) = utf8_valid rest.
Proof.
  destruct ch as [|c0 [|c1 [|c2 [|c3 [|]]]]]; try done; cbn [is_char].
  - intros H. rewrite app_cons, app_empty_l. cbn [utf8_valid]. by rewrite H.
  - intros [H0 H1]%andb_true_iff.
    rewrite !app_cons, app_empty_l. cbn [utf8_valid].
    by rewrite (lead2_not_ascii _ H0), H0, H1.
  - intros [H0 H2]%andb_true_iff.
    destruct (lead3_first _ _ H0) as [Ha Hl].
    rewrite !app_cons, app_empty_l. cbn [utf8_valid].
    by rewrite Ha, Hl, H0, H2.
  - intros [[H0 H2]%andb_true_iff H3]%andb_true_iff.
    destruct (lead4_first _ _ H0) as (Ha & Hl & Hl3).
    rewrite !app_cons, app_empty_l. cbn [utf8_valid].
    by rewrite Ha, Hl, Hl3, H0, H2, H3.
Qed.

Lemma WellFormed_utf8_valid b : WellFormed b -> utf8_valid b = true.
Proof.
  induction 1 as [|ch rest Hch _ IH]; [done|]. by rewrite utf8_valid_char.
Qed.

Lemma utf8_valid_WellFormed b : utf8_valid b = true -> WellFormed b.
Proof.
  induction b as [b IH] using (induction_ltof1 _ String.length).
  unfold ltof in IH.
  destruct b as [|c0 r0]; [constructor|]. cbn [utf8_valid].
  destruct (is_ascii c0) eqn:E0.
  { intros H. apply (WellFormed_char (String c0 EmptyString) r0); [done|].
    apply IH; [simpl; lia|done]. }
  destruct r0 as [|c1 r1]; [done|].
  destruct (lead2 c0) eqn:E2.
  { intros [H1 H]%andb_true_iff.
    apply (WellFormed_char (String c0 (String c1 EmptyString)) r1).
    - cbn [is_char]. by rewrite E2, H1.
    - apply IH; [simpl; lia|done]. }
  destruct r1 as [|c2 r2]; [done|].
  destruct (lead3 c0 c1) eqn:E3.
  { intros [H2 H]%andb_true_iff.
    apply (WellFormed_char (String c0 (String c1 (String c2 EmptyString))) r2).
    - cbn [is_char]. by rewrite E3, H2.
    - apply IH; [simpl; lia|done]. }
  destruct r2 as [|c3 r3]; [done|].
  intros [[[H4 H2]%andb_true_iff H3]%andb_true_iff H]%andb_true_iff.
  apply (WellFormed_char
           (String c0 (String c1 (String c2 (String c3 EmptyString)))) r3).
  - cbn [is_char]. by rewrite H4, H2, H3.
  - apply IH; [simpl; lia|done].
Qed.

Lemma utf8_valid_spec b : utf8_valid b = true <-> WellFormed b.
Proof. split; [apply utf8_valid_WellFormed|apply WellFormed_utf8_valid]. Qed.

(** *** Well-formed texts can be put together and taken apart *)

Lemma WellFormed_app u v : WellFormed u -> WellFormed v -> WellFormed (u +:+ v).
Proof.
  induction 1 as [|ch rest Hch _ IH]; [done|]. intros Hv.
  rewrite app_assoc3. constructor; auto.
Qed.

Lemma WellFormed_ascii a s : is_ascii a = true -> WellFormed s -> WellFormed (String a s).
Proof. intros Ha Hs. by apply (WellFormed_char (String a EmptyString) s). Qed.

(** An ASCII byte is a character of its own: the text can be cut before
    and after it. *)
Lemma WellFormed_cut u a v :
  is_ascii a = true -> WellFormed (u +:+ String a v) -> WellFormed u /\ WellFormed v.
Proof.
  intros Ha H. remember (u +:+ String a v) as s eqn:Es. revert u Es.
  induction H as [|ch rest Hch Hrest IH]; intros u Es.
  { destruct u; discriminate. }
  pose proof (ascii_not_continuation a Ha) as Hna.
  destruct ch as [|c0 [|c1 [|c2 [|c3 [|]]]]]; try done; cbn [is_char] in Hch;
    rewrite ?app_cons, ?app_empty_l in Es.
  - destruct u as [|x u]; rewrite ?app_cons, ?app_empty_l in Es;
      injection Es as -> Es.
    + subst rest. split; [constructor|done].
    + destruct (IH u Es) as [Hu Hv]. split; [by apply WellFormed_ascii|done].
  - apply andb_true_iff in Hch as [H0 H1].
    pose proof (lead2_not_ascii _ H0).
    destruct u as [|x [|y u]]; rewrite ?app_cons, ?app_empty_l in Es;
      simplify_eq; try congruence.
    destruct (IH u eq_refl) as [Hu Hv]. split; [|done].
    apply (WellFormed_char (String x (String y EmptyString)) u); [|done].
    cbn [is_char]. by rewrite H0, H1.
  - apply andb_true_iff in Hch as [H0 H2].
    destruct (lead3_first _ _ H0) as [? ?].
    pose proof (lead3_second _ _ H0).
    destruct u as [|x [|y [|z u]]]; rewrite ?app_cons, ?app_empty_l in Es;
      simplify_eq; try congruence.
    destruct (IH u eq_refl) as [Hu Hv]. split; [|done].
    apply (WellFormed_char (String x (String y (String z EmptyString))) u); [|done].
    cbn [is_char]. by rewrite H0, H2.
  - apply andb_true_iff in Hch as [[H0 H2]%andb_true_iff H3].
    destruct (lead4_first _ _ H0) as (? & ? & ?).
    pose proof (lead4_second _ _ H0).
    destruct u as [|x [|y [|z [|k u]]]]; rewrite ?app_cons, ?app_empty_l in Es;
      simplify_eq; try congruence.
    destruct (IH u eq_refl) as [Hu Hv]. split; [|done].
    apply (WellFormed_char
             (String x (String y (String z (String k EmptyString)))) u); [|done].
    cbn [is_char]. by rewrite H0, H2, H3.
Qed.

(** Cutting off a beginning made of ASCII bytes. *)
Lemma WellFormed_ascii_prefix p v :
  all_chars is_ascii p = true -> WellFormed (p +:+ v) -> WellFormed v.
Proof.
  induction p as [|a p IH]; [done|]. cbn [all_chars].
  intros [Ha Hp]%andb_true_iff. rewrite app_cons. intros H.
  apply IH; [done|]. by apply (WellFormed_cut EmptyString a (p +:+ v)).
Qed.

(** Replacing an ASCII token in a well-formed text by a well-formed text
    gives a well-formed text. *)
Lemma WellFormed_replace old new s :
  old <> EmptyString -> unbordered old = true -> all_chars is_ascii old = true ->
  WellFormed new -> WellFormed s -> WellFormed (replace old new s).
Proof.
  intros Hne Hub Hold Hnew.
  induction s as [s IH] using (induction_ltof1 _ String.length).
  unfold ltof in IH. intros Hs.
  destruct (contains old s) eqn:Hc.
  - apply contains_spec in Hc as (u & v & ->).
    assert (0 < String.length old) by (destruct old; simpl; [done|lia]).
    rewrite replace_occurrence by done.
    destruct old as [|a old']; [done|]. cbn [all_chars] in Hold.
    apply andb_true_iff in Hold as [Ha Hold'].
    rewrite app_cons in Hs. apply WellFormed_cut in Hs as [Hu Hv]; [|done].
    apply WellFormed_ascii_prefix in Hv; [|done].
    repeat apply WellFormed_app; try done.
    + apply IH; [|done]. rewrite !length_app. simpl in *. lia.
    + apply IH; [|done]. rewrite !length_app. simpl in *. lia.
  - by rewrite replace_absent.
Qed.

(** *** Newlines *)

Lemma universal_newlines_cons c s :
  c <> CR -> universal_newlines (String c s) = String c (universal_newlines s).
Proof. intros Hc. cbn [universal_newlines]. by rewrite decide_False. Qed.

(** A text without carriage return is read as it is. *)
Lemma universal_newlines_id s : has_char CR s = false -> universal_newlines s = s.
Proof.
  induction s as [|c s IH]; [done|]. cbn [has_char].
  destruct (decide (CR = c)) as [|Hne]; [done|]. intros H.
  rewrite universal_newlines_cons by done. by rewrite IH.
Qed.

Lemma WellFormed_universal_newlines b :
  WellFormed b -> WellFormed (universal_newlines b).
Proof.
  induction 1 as [|ch rest Hch Hrest IH]; [constructor|].
  destruct ch as [|c0 [|c1 [|c2 [|c3 [|]]]]]; try done; cbn [is_char] in Hch;
    rewrite ?app_cons, ?app_empty_l.
  - destruct (decide (c0 = CR)) as [->|Hne].
    + cbn [universal_newlines]. rewrite decide_True by done.
      apply WellFormed_ascii; [done|].
      destruct rest as [|d rest']; [constructor|].
      destruct (decide (d = LF)) as [->|]; [|done].
      rewrite universal_newlines_cons in IH by done.
      by apply (WellFormed_cut EmptyString LF) in IH as [_ ?].
    + rewrite universal_newlines_cons by done. by apply WellFormed_ascii.
  - apply andb_true_iff in Hch as [H0 H1].
    rewrite !universal_newlines_cons
      by (apply not_ascii_not_CR;
          auto using lead2_not_ascii, continuation_not_ascii).
    apply (WellFormed_char (String c0 (String c1 EmptyString))); [|done].
    cbn [is_char]. by rewrite H0, H1.
  - apply andb_true_iff in Hch as [H0 H2].
    destruct (lead3_first _ _ H0) as [? ?].
    pose proof (lead3_second _ _ H0).
    rewrite !universal_newlines_cons
      by (apply not_ascii_not_CR; auto using continuation_not_ascii).
    apply (WellFormed_char (String c0 (String c1 (String c2 EmptyString)))); [|done].
    cbn [is_char]. by rewrite H0, H2.
  - apply andb_true_iff in Hch as [[H0 H2]%andb_true_iff H3].
    destruct (lead4_first _ _ H0) as (? & ? & ?).
    pose proof (lead4_second _ _ H0).
    rewrite !universal_newlines_cons
      by (apply not_ascii_not_CR; auto using continuation_not_ascii).
    apply (WellFormed_char
             (String c0 (String c1 (String c2 (String c3 EmptyString))))); [|done].
    cbn [is_char]. by rewrite H0, H2, H3.
Qed.

(** On a platform whose line separator is the line feed, writing
    translates nothing. *)
Lemma translate_newlines_LF text :
  translate_newlines (String LF EmptyString) text = text.
Proof.
  unfold translate_newlines. induction text as [|c s IH]; [done|].
  rewrite replace_char_cons, IH. by destruct (decide (LF = c)) as [->|].
Qed.

End CodecFacts.

(* ===================================================================== *)
(** * Secret rotation, down to bytes *)
(* ===================================================================== *)

Section SecretBytesPaths.

Import Codec SecretBytes.

Implicit Types (w : world) (path secret text : string) (f : Fs.file).

Lemma PLACEHOLDER_ascii : all_chars is_ascii Secret.PLACEHOLDER = true.
Proof. reflexivity. Qed.

(** The text written back is well-formed when the file and the secret
    are. *)
Lemma replaced_text_valid f secret :
  utf8_valid (Fs.bytes f) = true -> utf8_valid secret = true ->
  utf8_valid (replace Secret.PLACEHOLDER secret (text_of f)) = true.
Proof.
  rewrite !utf8_valid_spec. intros Hf Hs.
  apply WellFormed_replace; try done.
  by apply WellFormed_universal_newlines.
Qed.

(** *** The paths through [replace_placeholder] *)

Lemma bytes_missing path secret w :
  entries w !! path = None ->
  replace_placeholder path secret w = (Ok tt, w).
Proof.
  intros H. unfold replace_placeholder, mbind, io_bind, bind, path_exists.
  by rewrite H.
Qed.

Lemma bytes_inaccessible path secret w msg :
  entries w !! path = Some (Inaccessible msg) ->
  replace_placeholder path secret w = (Raised (IOError msg), w).
Proof.
  intros H. unfold replace_placeholder, mbind, io_bind, bind, path_exists.
  by rewrite H.
Qed.

Lemma bytes_unreadable path secret w f msg :
  entries w !! path = Some (Regular f) -> Fs.read_error f = Some msg ->
  replace_placeholder path secret w
  = print ("Warning: Could not read " +:+ path +:+ ": " +:+ msg) w.
Proof.
  intros H Hr. unfold replace_placeholder, mbind, io_bind, bind, path_exists.
  rewrite H. cbn [negb]. unfold try_except_IOError, read_text. by rewrite H, Hr.
Qed.

Lemma bytes_undecodable path secret w f :
  entries w !! path = Some (Regular f) -> Fs.read_error f = None ->
  utf8_valid (Fs.bytes f) = false ->
  replace_placeholder path secret w = (Raised UnicodeDecodeError, w).
Proof.
  intros H Hr Hv. unfold replace_placeholder, mbind, io_bind, bind, path_exists.
  rewrite H. cbn [negb]. unfold try_except_IOError, read_text. by rewrite H, Hr, Hv.
Qed.

Lemma bytes_no_placeholder path secret w f :
  entries w !! path = Some (Regular f) -> Fs.read_error f = None ->
  utf8_valid (Fs.bytes f) = true ->
  contains Secret.PLACEHOLDER (text_of f) = false ->
  replace_placeholder path secret w = (Ok tt, w).
Proof.
  intros H Hr Hv Hc. unfold replace_placeholder, mbind, io_bind, bind, path_exists.
  rewrite H. cbn [negb]. unfold try_except_IOError at 1. unfold read_text.
  rewrite H, Hr, Hv. fold (text_of f). by rewrite Hc.
Qed.

Lemma bytes_unwritable path secret w f msg :
  entries w !! path = Some (Regular f) -> Fs.read_error f = None ->
  utf8_valid (Fs.bytes f) = true ->
  contains Secret.PLACEHOLDER (text_of f) = true ->
  Fs.open_error f = Some msg ->
  replace_placeholder path secret w
  = print ("Error writing to " +:+ path +:+ ": " +:+ msg) w.
Proof.
  intros H Hr Hv Hc Ho. unfold replace_placeholder, mbind, io_bind, bind, path_exists.
  rewrite H. cbn [negb]. unfold try_except_IOError at 1. unfold read_text.
  rewrite H, Hr, Hv. fold (text_of f). rewrite Hc. cbn [negb].
  unfold try_except_IOError, write_text. by rewrite H, Ho.
Qed.

Lemma bytes_unencodable path secret w f :
  entries w !! path = Some (Regular f) -> Fs.read_error f = None ->
  utf8_valid (Fs.bytes f) = true ->
  contains Secret.PLACEHOLDER (text_of f) = true ->
  Fs.open_error f = None ->
  utf8_valid (replace Secret.PLACEHOLDER secret (text_of f)) = false ->
  replace_placeholder path secret w
  = (Raised UnicodeEncodeError, put path (Fs.set_bytes f EmptyString) w).
Proof.
  intros H Hr Hv Hc Ho He. unfold replace_placeholder, mbind, io_bind, bind, path_exists.
  rewrite H. cbn [negb]. unfold try_except_IOError at 1. unfold read_text.
  rewrite H, Hr, Hv. fold (text_of f). rewrite Hc. cbn [negb].
  unfold try_except_IOError, write_text, write_opened. by rewrite H, Ho, He.
Qed.

Lemma bytes_short_write path secret w f room msg :
  entries w !! path = Some (Regular f) -> Fs.read_error f = None ->
  utf8_valid (Fs.bytes f) = true ->
  contains Secret.PLACEHOLDER (text_of f) = true ->
  Fs.open_error f = None ->
  utf8_valid (replace Secret.PLACEHOLDER secret (text_of f)) = true ->
  device w = Some (room, msg) -> room < String.length (rewritten w f secret) ->
  replace_placeholder path secret w
  = print ("Error writing to " +:+ path +:+ ": " +:+ msg)
      (put path (Fs.set_bytes f (take room (rewritten w f secret))) w).
Proof.
  intros H Hr Hv Hc Ho He Hd Hroom.
  unfold replace_placeholder, mbind, io_bind, bind, path_exists.
  rewrite H. cbn [negb]. unfold try_except_IOError at 1. unfold read_text.
  rewrite H, Hr, Hv. fold (text_of f). rewrite Hc. cbn [negb].
  unfold try_except_IOError, write_text, write_opened. rewrite H, Ho, He.
  fold (rewritten w f secret). unfold Fs.write_bytes. rewrite Hd.
  apply Nat.ltb_lt in Hroom. by rewrite Hroom.
Qed.

Lemma bytes_written path secret w f :
  entries w !! path = Some (Regular f) -> Fs.read_error f = None ->
  utf8_valid (Fs.bytes f) = true ->
  contains Secret.PLACEHOLDER (text_of f) = true ->
  Fs.open_error f = None ->
  utf8_valid (replace Secret.PLACEHOLDER secret (text_of f)) = true ->
  (forall room msg, device w = Some (room, msg) ->
     String.length (rewritten w f secret) <= room) ->
  replace_placeholder path secret w
  = print ("Updated secret in: " +:+ path)
      (put path (Fs.set_bytes f (rewritten w f secret)) w).
Proof.
  intros H Hr Hv Hc Ho He Hd.
  unfold replace_placeholder, mbind, io_bind, bind, path_exists.
  rewrite H. cbn [negb]. unfold try_except_IOError at 1. unfold read_text.
  rewrite H, Hr, Hv. fold (text_of f). rewrite Hc. cbn [negb].
  unfold try_except_IOError, write_text, write_opened. rewrite H, Ho, He.
  fold (rewritten w f secret). unfold Fs.write_bytes.
  destruct (device w) as [[room msg]|] eqn:E; [|done].
  specialize (Hd room msg eq_refl). apply Nat.ltb_ge in Hd. by rewrite Hd.
Qed.

Lemma world_eta_bytes w :
  {| entries := entries w; device := device w; linesep := linesep w;
     stdout := stdout w ++ [] |} = w.
Proof. destruct w. simpl. by rewrite app_nil_r. Qed.

(** The world after a call, in one formula: the outcome, at most one line
    of output, and either the entries as they were or the target, which
    was opened for writing, with new bytes. *)
Lemma bytes_shape path secret w :
  exists r es lines,
    replace_placeholder path secret w
    = (r, {| entries := es; device := device w; linesep := linesep w;
             stdout := stdout w ++ lines |})
    /\ length lines <= 1
    /\ (forall msg, r = Raised (IOError msg) ->
          entries w !! path = Some (Inaccessible msg))
    /\ (es = entries w
        \/ exists f b,
             entries w !! path = Some (Regular f)
             /\ Fs.read_error f = None
             /\ utf8_valid (Fs.bytes f) = true
             /\ contains Secret.PLACEHOLDER (text_of f) = true
             /\ Fs.open_error f = None
             /\ es = <[path := Regular (Fs.set_bytes f b)]> (entries w)).
Proof.
  destruct (entries w !! path) as [[msg|f]|] eqn:H.
  3: { exists (Ok tt), (entries w), []. rewrite bytes_missing by done.
       rewrite world_eta_bytes. split; [done|]. split; [simpl; lia|]. by split; [|left]. }
  1: { exists (Raised (IOError msg)), (entries w), [].
       erewrite bytes_inaccessible by done.
       rewrite world_eta_bytes. split; [done|]. split; [simpl; lia|].
       split; [by intros ? [= ->]|by left]. }
  destruct (Fs.read_error f) as [msg|] eqn:Hr.
  1: { eexists (Ok tt), (entries w), [_].
       erewrite bytes_unreadable by done.
       split; [reflexivity|]. split; [simpl; lia|]. by split; [|left]. }
  destruct (utf8_valid (Fs.bytes f)) eqn:Hv.
  2: { exists (Raised UnicodeDecodeError), (entries w), [].
       erewrite bytes_undecodable by done.
       rewrite world_eta_bytes. split; [done|]. split; [simpl; lia|]. by split; [|left]. }
  destruct (contains Secret.PLACEHOLDER (text_of f)) eqn:Hc.
  2: { exists (Ok tt), (entries w), [].
       erewrite bytes_no_placeholder by done.
       rewrite world_eta_bytes. split; [done|]. split; [simpl; lia|]. by split; [|left]. }
  destruct (Fs.open_error f) as [msg|] eqn:Ho.
  1: { eexists (Ok tt), (entries w), [_].
       erewrite bytes_unwritable by done.
       split; [reflexivity|]. split; [simpl; lia|]. by split; [|left]. }
  destruct (utf8_valid (replace Secret.PLACEHOLDER secret (text_of f))) eqn:He.
  2: { eexists (Raised UnicodeEncodeError), _, [].
       erewrite bytes_unencodable by done.
       unfold put. rewrite app_nil_r.
       split; [reflexivity|]. split; [simpl; lia|]. split; [done|].
       right. exists f, EmptyString. auto 10. }
  destruct (device w) as [[room msg]|] eqn:Hd.
  - destruct (Nat.lt_ge_cases room (String.length (rewritten w f secret))) as [Hlt|Hge].
    + eexists (Ok tt), _, [_].
      erewrite bytes_short_write by done.
      unfold print, put. cbn [entries device linesep stdout]. rewrite Hd.
      split; [reflexivity|]. split; [simpl; lia|]. split; [done|].
      right. eexists f, _. auto 10.
    + eexists (Ok tt), _, [_].
      erewrite bytes_written; try done.
      2: { intros room' msg' ?. by simplify_eq. }
      unfold print, put. cbn [entries device linesep stdout]. rewrite Hd.
      split; [reflexivity|]. split; [simpl; lia|]. split; [done|].
      right. eexists f, _. auto 10.
  - eexists (Ok tt), _, [_].
    erewrite bytes_written; try done.
    2: { intros room' msg' ?. by simplify_eq. }
    unfold print, put. cbn [entries device linesep stdout]. rewrite Hd.
    split; [reflexivity|]. split; [simpl; lia|]. split; [done|].
    right. eexists f, _. auto 10.
Qed.

End SecretBytesPaths.

Section ReplacePlaceholderBytes.

Import Codec SecretBytes.

Implicit Types (w : world) (path secret text : string) (f : Fs.file).

(** C7, as the code has it.  Take an existing file that can be read and
    written and holds well-formed UTF-8 without carriage return, on a
    platform whose line separator is the line feed, and a secret that can
    be encoded.  The call returns normally and leaves at [path] the bytes
    in which every occurrence of the placeholder is replaced by the
    secret and every byte outside the occurrences is unchanged; these
    bytes are what replacing in the file's bytes computes, and no other
    bytes fit the description.  No other file is touched. *)
Theorem replace_placeholder_replaces_every_occurrence w path secret f :
  entries w !! path = Some (Regular f) ->
  Fs.read_error f = None ->
  Fs.open_error f = None ->
  device w = None ->
  linesep w = String LF EmptyString ->
  utf8_valid (Fs.bytes f) = true ->
  has_char CR (Fs.bytes f) = false ->
  utf8_valid secret = true ->
  exists w' f',
    replace_placeholder path secret w = (Ok tt, w')
    /\ entries w' !! path = Some (Regular f')
    /\ Fs.bytes f' = replace Secret.PLACEHOLDER secret (Fs.bytes f)
    /\ Secret.Replaced Secret.PLACEHOLDER secret (Fs.bytes f) (Fs.bytes f')
    /\ (forall b, Secret.Replaced Secret.PLACEHOLDER secret (Fs.bytes f) b ->
          b = Fs.bytes f')
    /\ (forall other, other <> path -> entries w' !! other = entries w !! other).
Proof.
  intros H Hr Ho Hd Hsep Hv Hcr Hs.
  assert (text_of f = Fs.bytes f) as Htext by (by apply universal_newlines_id).
  assert (rewritten w f secret = replace Secret.PLACEHOLDER secret (Fs.bytes f)) as Hnew.
  { unfold rewritten. by rewrite Hsep, translate_newlines_LF, Htext. }
  assert (exists w' f',
            replace_placeholder path secret w = (Ok tt, w')
            /\ entries w' !! path = Some (Regular f')
            /\ Fs.bytes f' = replace Secret.PLACEHOLDER secret (Fs.bytes f)
            /\ (forall other, other <> path ->
                  entries w' !! other = entries w !! other))
    as (w' & f' & Hrun & Hat & Hbytes & Hother).
  { destruct (contains Secret.PLACEHOLDER (text_of f)) eqn:Hc.
    - eexists _, (Fs.set_bytes f (rewritten w f secret)).
      split; [|split; [|split]].
      + rewrite (bytes_written path secret w f H Hr Hv Hc Ho
                   (replaced_text_valid f secret Hv Hs)); [reflexivity|].
        intros room msg Hd'. congruence.
      + cbn [entries put]. apply lookup_insert_eq.
      + by rewrite <- Hnew.
      + intros other Hne. cbn [entries put]. by rewrite lookup_insert_ne.
    - exists w, f. split; [|split; [|split]]; try done.
      + by apply (bytes_no_placeholder path secret w f).
      + rewrite Htext in Hc. by rewrite replace_absent. }
  exists w', f'. rewrite Hbytes.
  split; [done|]. split; [done|]. split; [done|]. split; [|split; [|done]].
  - apply replace_Replaced;
      [apply PLACEHOLDER_nonempty|apply PLACEHOLDER_unbordered].
  - intros b Hb.
    apply Replaced_replace;
      [apply PLACEHOLDER_nonempty|apply PLACEHOLDER_unbordered|done].
Qed.

Lemma replace_placeholder_replaces_every_occurrence_witness :
  exists w' f',
    replace_placeholder ".env" "MyNewSecret123"
      (only_env lf (Fs.plain_file "SECRET=CHANGE_ME_LOCAL_SECRET"))
    = (Ok tt, w')
    /\ entries w' !! ".env" = Some (Regular f')
    /\ Fs.bytes f'
       = replace Secret.PLACEHOLDER "MyNewSecret123"
           (Fs.bytes (Fs.plain_file "SECRET=CHANGE_ME_LOCAL_SECRET"))
    /\ Secret.Replaced Secret.PLACEHOLDER "MyNewSecret123"
         (Fs.bytes (Fs.plain_file "SECRET=CHANGE_ME_LOCAL_SECRET")) (Fs.bytes f')
    /\ (forall b,
          Secret.Replaced Secret.PLACEHOLDER "MyNewSecret123"
            (Fs.bytes (Fs.plain_file "SECRET=CHANGE_ME_LOCAL_SECRET")) b ->
          b = Fs.bytes f')
    /\ (forall other, other <> ".env" ->
          entries w' !! other
          = entries (only_env lf (Fs.plain_file "SECRET=CHANGE_ME_LOCAL_SECRET"))
              !! other).
Proof.
  apply (replace_placeholder_replaces_every_occurrence
           (only_env lf (Fs.plain_file "SECRET=CHANGE_ME_LOCAL_SECRET"))
           ".env" "MyNewSecret123"
           (Fs.plain_file "SECRET=CHANGE_ME_LOCAL_SECRET")).
  - reflexivity.
  - reflexivity.
  - reflexivity.
  - reflexivity.
  - reflexivity.
  - reflexivity.
  - reflexivity.
  - reflexivity.
Defined.

(** C7, as stated, fails, for existing files and secrets of five kinds.
    A file that may not be opened for writing keeps its placeholder, by
    the function's own [except IOError].  In a file with Windows line
    ends every carriage return is dropped, and on a platform whose line
    separator is carriage return and line feed every line feed gets a
    carriage return: bytes outside the occurrences change.  A file that
    is not UTF-8 keeps its placeholder, and the call raises.  A secret
    that cannot be encoded leaves the file empty, and the call raises. *)
Lemma replace_placeholder_not_for_every_file :
  (replace_placeholder ".env" "MyNewSecret123"
     (only_env lf (write_protected "SECRET=CHANGE_ME_LOCAL_SECRET"))
   = (Ok tt,
      {| entries := {[ ".env" := Regular (write_protected "SECRET=CHANGE_ME_LOCAL_SECRET") ]};
         device := None; linesep := lf;
         stdout := ["Error writing to .env: Permission denied"] |}))
  /\ (bytes_at ".env"
        (replace_placeholder ".env" "MyNewSecret123"
           (only_env lf (Fs.plain_file (two_lines "CHANGE_ME_LOCAL_SECRET" crlf)))).2
      = Some (two_lines "MyNewSecret123" lf)
      /\ replace Secret.PLACEHOLDER "MyNewSecret123"
           (two_lines "CHANGE_ME_LOCAL_SECRET" crlf)
         = two_lines "MyNewSecret123" crlf
      /\ two_lines "MyNewSecret123" lf <> two_lines "MyNewSecret123" crlf)
  /\ (bytes_at ".env"
        (replace_placeholder ".env" "MyNewSecret123"
           (only_env crlf (Fs.plain_file (two_lines "CHANGE_ME_LOCAL_SECRET" lf)))).2
      = Some (two_lines "MyNewSecret123" crlf)
      /\ replace Secret.PLACEHOLDER "MyNewSecret123"
           (two_lines "CHANGE_ME_LOCAL_SECRET" lf)
         = two_lines "MyNewSecret123" lf)
  /\ (replace_placeholder ".env" "MyNewSecret123"
        (only_env lf (Fs.plain_file (latin1_env "CHANGE_ME_LOCAL_SECRET")))
      = (Raised UnicodeDecodeError,
         only_env lf (Fs.plain_file (latin1_env "CHANGE_ME_LOCAL_SECRET")))
      /\ contains Secret.PLACEHOLDER (latin1_env "CHANGE_ME_LOCAL_SECRET") = true)
  /\ (replace_placeholder ".env" lone_surrogate
        (only_env lf (Fs.plain_file "SECRET=CHANGE_ME_LOCAL_SECRET"))
      = (Raised UnicodeEncodeError, only_env lf (Fs.plain_file EmptyString))).
Proof.
  split; [vm_compute; reflexivity|].
  split; [split; [vm_compute; reflexivity|split; [vm_compute; reflexivity|]]|].
  { vm_compute. discriminate. }
  split; [split; vm_compute; reflexivity|].
  split; [split; vm_compute; reflexivity|].
  vm_compute. reflexivity.
Qed.

(** C8.  The code misses a case.  An [.env] that is not UTF-8 holds no
    placeholder, and the call does not return: the [UnicodeDecodeError]
    of [read_text] is no [IOError] and passes the [except] clause.  A
    path that [stat] cannot reach makes [exists] raise, outside any
    [try]. *)
Theorem replace_placeholder_raises_without_placeholder :
  contains Secret.PLACEHOLDER (latin1_env "already_set_value") = false
  /\ replace_placeholder ".env" "MyNewSecret123"
       (only_env lf (Fs.plain_file (latin1_env "already_set_value")))
     = (Raised UnicodeDecodeError,
        only_env lf (Fs.plain_file (latin1_env "already_set_value")))
  /\ replace_placeholder ".env" "MyNewSecret123"
       {| entries := {[ ".env" := Inaccessible "Permission denied" ]};
          device := None; linesep := lf; stdout := [] |}
     = (Raised (IOError "Permission denied"),
        {| entries := {[ ".env" := Inaccessible "Permission denied" ]};
           device := None; linesep := lf; stdout := [] |}).
Proof. repeat split; vm_compute; reflexivity. Qed.

(** X3.  When the file holds the placeholder and can be read, a failing
    write is reported and not raised: the call returns normally, having
    printed the error and no success line.  A file that cannot be opened
    for writing is left as it was.  When the device fails after the file
    was opened, the file is left with the bytes written so far and its
    old content is lost. *)
Theorem replace_placeholder_write_error w path secret f :
  entries w !! path = Some (Regular f) ->
  Fs.read_error f = None ->
  utf8_valid (Fs.bytes f) = true ->
  contains Secret.PLACEHOLDER (text_of f) = true ->
  utf8_valid secret = true ->
  (forall msg, Fs.open_error f = Some msg ->
     replace_placeholder path secret w
     = (Ok tt,
        {| entries := entries w; device := device w; linesep := linesep w;
           stdout := stdout w ++ ["Error writing to " +:+ path +:+ ": " +:+ msg] |}))
  /\ (forall room msg,
        Fs.open_error f = None -> device w = Some (room, msg) ->
        room < String.length (rewritten w f secret) ->
        replace_placeholder path secret w
        = (Ok tt,
           {| entries :=
                <[path := Regular (Fs.set_bytes f (take room (rewritten w f secret)))]>
                  (entries w);
              device := device w; linesep := linesep w;
              stdout := stdout w ++ ["Error writing to " +:+ path +:+ ": " +:+ msg] |})).
Proof.
  intros H Hr Hv Hc Hs. split.
  - intros msg Ho. by rewrite (bytes_unwritable path secret w f msg).
  - intros room msg Ho Hd Hroom.
    rewrite (bytes_short_write path secret w f room msg); try done.
    by apply replaced_text_valid.
Qed.

(** A disk that is full after four bytes: [.env] is left with [SECR]. *)
Lemma replace_placeholder_write_error_witness :
  replace_placeholder ".env" "MyNewSecret123"
    {| entries := {[ ".env" := Regular (Fs.plain_file "SECRET=CHANGE_ME_LOCAL_SECRET") ]};
       device := Some (4, "No space left on device"); linesep := lf; stdout := [] |}
  = (Ok tt,
     {| entries :=
          <[".env" := Regular (Fs.set_bytes (Fs.plain_file "SECRET=CHANGE_ME_LOCAL_SECRET")
                                 (take 4 (rewritten
                                    {| entries := {[ ".env" := Regular (Fs.plain_file "SECRET=CHANGE_ME_LOCAL_SECRET") ]};
                                       device := Some (4, "No space left on device");
                                       linesep := lf; stdout := [] |}
                                    (Fs.plain_file "SECRET=CHANGE_ME_LOCAL_SECRET")
                                    "MyNewSecret123")))]>
            {[ ".env" := Regular (Fs.plain_file "SECRET=CHANGE_ME_LOCAL_SECRET") ]};
        device := Some (4, "No space left on device"); linesep := lf;
        stdout := [] ++ ["Error writing to " +:+ ".env" +:+ ": " +:+ "No space left on device"] |}).
Proof.
  refine (proj2 (replace_placeholder_write_error
            {| entries := {[ ".env" := Regular (Fs.plain_file "SECRET=CHANGE_ME_LOCAL_SECRET") ]};
               device := Some (4, "No space left on device"); linesep := lf; stdout := [] |}
            ".env" "MyNewSecret123" (Fs.plain_file "SECRET=CHANGE_ME_LOCAL_SECRET")
            _ _ _ _ _)
          4 "No space left on device" _ _ _).
  - reflexivity.
  - reflexivity.
  - reflexivity.
  - reflexivity.
  - reflexivity.
  - reflexivity.
  - reflexivity.
  - vm_compute. lia.
Defined.

Example short_write_example :
  bytes_at ".env"
    (replace_placeholder ".env" "MyNewSecret123"
       {| entries := {[ ".env" := Regular (Fs.plain_file "SECRET=CHANGE_ME_LOCAL_SECRET") ]};
          device := Some (4, "No space left on device"); linesep := lf; stdout := [] |}).2
  = Some "SECR".
Proof. vm_compute. reflexivity. Qed.

(** X4.  However a call ends, by returning or with an exception, it
    neither creates nor deletes a file and leaves every file other than
    the target as it was.  The entries change only if the target could
    be read and decoded, held the placeholder and was opened for writing.
    An [IOError] leaves the function only when it comes from [exists].
    At most one line is printed. *)
Theorem replace_placeholder_frame w path secret :
  dom (entries (replace_placeholder path secret w).2) = dom (entries w)
  /\ (forall other, other <> path ->
        entries (replace_placeholder path secret w).2 !! other = entries w !! other)
  /\ (entries (replace_placeholder path secret w).2 <> entries w ->
        exists f, entries w !! path = Some (Regular f)
          /\ Fs.read_error f = None
          /\ utf8_valid (Fs.bytes f) = true
          /\ contains Secret.PLACEHOLDER (text_of f) = true
          /\ Fs.open_error f = None)
  /\ (forall msg, (replace_placeholder path secret w).1 = Raised (IOError msg) ->
        entries w !! path = Some (Inaccessible msg))
  /\ device (replace_placeholder path secret w).2 = device w
  /\ linesep (replace_placeholder path secret w).2 = linesep w
  /\ exists lines,
       stdout (replace_placeholder path secret w).2 = stdout w ++ lines
       /\ length lines <= 1.
Proof.
  destruct (bytes_shape path secret w)
    as (r & es & lines & -> & Hlen & Hio & Hes).
  cbn [fst snd entries device linesep stdout].
  split; [|split; [|split; [|split; [done|split; [done|split; [done|]]]]]].
  - destruct Hes as [->|(f & b & H & _ & _ & _ & _ & ->)]; [done|].
    rewrite dom_insert_L.
    assert (path ∈ dom (entries w)) as Hin by (apply elem_of_dom; eauto).
    apply leibniz_equiv. intros x. rewrite elem_of_union, elem_of_singleton.
    split; [by intros [->|?]|by right].
  - intros other Hne.
    destruct Hes as [->|(f & b & _ & _ & _ & _ & _ & ->)]; [done|].
    by rewrite lookup_insert_ne.
  - intros Hch. destruct Hes as [->|(f & b & ? & ? & ? & ? & ? & _)]; [done|].
    by exists f.
  - by exists lines.
Qed.

End ReplacePlaceholderBytes.

(* ===================================================================== *)
(** * Cleanup and copy, down to the entries *)
(* ===================================================================== *)

Section WorkspaceFacts.

Import Pgo Workspace.

Implicit Types (cwd : Workspace.directory) (name : string) (e : Fs.file).

Lemma In_glob_profile_entries cwd name :
  name ∈ glob "cpuprofile*.pprof" cwd
  <-> is_Some (cwd !! name) /\ is_profile_name name.
Proof. unfold glob. by rewrite In_glob_profile, lookup_fmap, fmap_is_Some. Qed.

Lemma In_glob_test_entries cwd name :
  name ∈ glob "*.test" cwd
  <-> is_Some (cwd !! name) /\ is_test_binary_name name.
Proof. unfold glob. by rewrite In_glob_test, lookup_fmap, fmap_is_Some. Qed.

Lemma NoDup_glob_entries pat cwd : NoDup (glob pat cwd).
Proof. apply NoDup_glob. Qed.

(** What [removable] says, entry by entry. *)
Lemma removable_spec cwd name e :
  removable cwd = true -> cwd !! name = Some e ->
  is_profile_name name \/ is_test_binary_name name ->
  Fs.remove_error e = None.
Proof.
  unfold removable. rewrite forallb_forall. intros Hall He Hsel.
  assert (name ∈ glob "cpuprofile*.pprof" cwd ++ glob "*.test" cwd) as Hin.
  { apply elem_of_app. destruct Hsel; [left|right].
    - apply In_glob_profile_entries. by rewrite He.
    - apply In_glob_test_entries. by rewrite He. }
  apply list_elem_of_In, Hall in Hin. rewrite He in Hin.
  by apply bool_decide_eq_true in Hin.
Qed.

(** *** Removing the entries found *)

(** A loop that completes has removed exactly the names it was given. *)
Lemma remove_each_Done names cwd cwd' :
  remove_each names cwd = Done cwd' ->
  forall name, cwd' !! name = if decide (name ∈ names) then None else cwd !! name.
Proof.
  revert cwd. induction names as [|f rest IH]; intros cwd.
  - intros [= <-] name. by rewrite decide_False by apply not_elem_of_nil.
  - cbn [remove_each]. unfold os_remove.
    destruct (cwd !! f) as [e|] eqn:He; [|done].
    destruct (Fs.remove_error e); [done|].
    intros Hrun name. rewrite (IH _ Hrun).
    destruct (decide (name = f)) as [->|Hne].
    + rewrite lookup_delete_eq.
      rewrite (decide_True (P := f ∈ f :: rest)) by (by left).
      by destruct (decide (f ∈ rest)).
    + rewrite lookup_delete_ne by done.
      destruct (decide (name ∈ rest)) as [Hr|Hr].
      * by rewrite (decide_True (P := name ∈ f :: rest)) by (by right).
      * rewrite (decide_False (P := name ∈ f :: rest)); [done|].
        by intros [?|?]%elem_of_cons.
Qed.

(** A loop over distinct names, all there and all removable, completes. *)
Lemma remove_each_completes names cwd :
  NoDup names ->
  (forall f, f ∈ names -> exists e, cwd !! f = Some e /\ Fs.remove_error e = None) ->
  exists cwd', remove_each names cwd = Done cwd'.
Proof.
  intros Hnd. revert cwd. induction Hnd as [|f rest Hf Hnd IH]; intros cwd Hin.
  - by exists cwd.
  - destruct (Hin f) as (e & He & Hrm); [by left|].
    cbn [remove_each]. unfold os_remove. rewrite He, Hrm.
    apply IH. intros g Hg. rewrite lookup_delete_ne; [apply Hin; by right|].
    by intros ->.
Qed.

(** *** Cleanup *)

(** What a cleanup that completes leaves behind: every entry that matches
    one of the two patterns is gone, every other entry is as it was. *)
Lemma cleanup_Done cwd cwd' :
  cleanup cwd = Done cwd' ->
  (forall name, is_profile_name name \/ is_test_binary_name name ->
     cwd' !! name = None)
  /\ (forall name, ~ is_profile_name name -> ~ is_test_binary_name name ->
        cwd' !! name = cwd !! name).
Proof.
  unfold cleanup.
  destruct (remove_each (glob "cpuprofile*.pprof" cwd) cwd) as [cwd1|] eqn:H1; [|done].
  intros H2.
  pose proof (remove_each_Done _ _ _ H1) as Hlook1.
  pose proof (remove_each_Done _ _ _ H2) as Hlook2.
  split.
  - intros name Hsel. rewrite Hlook2.
    destruct (decide (name ∈ glob "*.test" cwd1)) as [|Hn2]; [done|].
    rewrite Hlook1.
    destruct (decide (name ∈ glob "cpuprofile*.pprof" cwd)) as [|Hn1]; [done|].
    destruct (cwd !! name) as [v|] eqn:Hv; [|done]. exfalso.
    destruct Hsel as [Hsel|Hsel].
    + apply Hn1, In_glob_profile_entries. by rewrite Hv.
    + apply Hn2, In_glob_test_entries. split; [|done]. rewrite Hlook1.
      rewrite decide_False by done. by rewrite Hv.
  - intros name Hp Ht. rewrite Hlook2, decide_False, Hlook1, decide_False; [done|..].
    + rewrite In_glob_profile_entries. tauto.
    + rewrite In_glob_test_entries. tauto.
Qed.

(** Cleanup completes when the entries it selects can be removed. *)
Lemma cleanup_completes cwd :
  removable cwd = true -> exists cwd', cleanup cwd = Done cwd'.
Proof.
  intros Hrm. unfold cleanup.
  destruct (remove_each_completes (glob "cpuprofile*.pprof" cwd) cwd) as [cwd1 H1].
  { apply NoDup_glob_entries. }
  { intros f [[e He] Hp]%In_glob_profile_entries. exists e. split; [done|].
    apply (removable_spec cwd f e); auto. }
  rewrite H1. pose proof (remove_each_Done _ _ _ H1) as Hlook1.
  apply remove_each_completes; [apply NoDup_glob_entries|].
  intros f [[e He] Ht]%In_glob_test_entries. exists e. split; [done|].
  rewrite Hlook1 in He.
  destruct (decide (f ∈ glob "cpuprofile*.pprof" cwd)); [done|].
  apply (removable_spec cwd f e); auto.
Qed.

(** A directory without an entry that a pattern matches. *)
Lemma glob_nil pat cwd :
  (forall name, name ∈ glob pat cwd -> False) -> glob pat cwd = [].
Proof.
  destruct (glob pat cwd) as [|x l]; [done|]. intros H. destruct (H x). by left.
Qed.

Lemma cleanup_again cwd cwd' : cleanup cwd = Done cwd' -> cleanup cwd' = Done cwd'.
Proof.
  intros [Hgone _]%cleanup_Done. unfold cleanup.
  rewrite (glob_nil "cpuprofile*.pprof" cwd').
  2: { intros name [[e He] Hp]%In_glob_profile_entries.
       rewrite Hgone in He by auto. done. }
  cbn [remove_each]. rewrite (glob_nil "*.test" cwd'); [done|].
  intros name [[e He] Hp]%In_glob_test_entries.
  rewrite Hgone in He by auto. done.
Qed.

End WorkspaceFacts.

Section WorkspaceClaims.

Import Pgo Workspace.

Implicit Types (cwd : Workspace.directory) (name : string) (e : Fs.file).




(** A subdirectory that a pattern selects stops the cleanup: [os.remove]
    raises, and the test binaries stay. *)
Example cleanup_stops_at_subdirectory :
  exists cwd',
    cleanup {[ "cpuprofile-old.pprof" :=
                 {| Fs.bytes := ""; Fs.read_error := Some "Is a directory";
                    Fs.open_error := Some "Is a directory";
                    Fs.remove_error := Some "Is a directory" |};
               "server.test" := Fs.plain_file "elf" ]}
    = Raised "Is a directory" cwd'
    /\ Fs.bytes <$> cwd' !! "server.test" = Some "elf".
Proof. eexists. split; vm_compute; reflexivity. Qed.

End WorkspaceClaims.

Section WorkspaceMore.

Import Pgo Workspace.

Implicit Types (cwd : Workspace.directory) (name pkg : string) (e : Fs.file).

(** X12.  The names and the patterns fit together: for every unit, its
    artifact name is matched by the wildcard of the merge command and by
    the first pattern of the cleanup.  So a cleanup that completes leaves
    no file of that name, and the cleanup does complete where the entries
    it selects can be removed. *)
Theorem artifacts_are_merged_and_cleaned (pkg : string) :
  fnmatchcase (output_file pkg) merge_pattern = true
  /\ fnmatchcase (output_file pkg) "cpuprofile*.pprof" = true
  /\ (forall cwd cwd', cleanup cwd = Done cwd' -> cwd' !! output_file pkg = None)
  /\ (forall cwd, removable cwd = true ->
        exists cwd', cleanup cwd = Done cwd' /\ cwd' !! output_file pkg = None).
Proof.
  split; [|split; [|split]].
  - apply fnmatchcase_merge_pattern. by exists (suffix pkg).
  - apply fnmatchcase_profile, output_file_is_profile_name.
  - intros cwd cwd' [Hgone _]%cleanup_Done.
    apply Hgone. left. apply output_file_is_profile_name.
  - intros cwd [cwd' Hrun]%cleanup_completes. exists cwd'. split; [done|].
    apply cleanup_Done in Hrun as [Hgone _].
    apply Hgone. left. apply output_file_is_profile_name.
Qed.

(** X13.  Cleanup is idempotent: where the entries it selects can be
    removed it completes, and running it again on the directory it left
    completes as well and changes nothing. *)
Theorem cleanup_idempotent cwd :
  removable cwd = true ->
  exists cwd', cleanup cwd = Done cwd' /\ cleanup cwd' = Done cwd'.
Proof.
  intros [cwd' Hrun]%cleanup_completes. exists cwd'. split; [done|].
  by apply (cleanup_again cwd).
Qed.

Lemma cleanup_idempotent_witness :
  exists cwd',
    cleanup {[ "cpuprofile.pprof" := Fs.plain_file "samples";
               "server.test" := Fs.plain_file "elf";
               "important.txt" := Fs.plain_file "notes" ]}
    = Done cwd'
    /\ cleanup cwd' = Done cwd'.
Proof.
  apply (cleanup_idempotent
           {[ "cpuprofile.pprof" := Fs.plain_file "samples";
              "server.test" := Fs.plain_file "elf";
              "important.txt" := Fs.plain_file "notes" ]}).
  vm_compute. reflexivity.
Defined.

End WorkspaceMore.

Section CopyFile.

Import Pgo Workspace.

Implicit Types (cwd : Workspace.directory) (src dst : string) (s d : Fs.file).

(** The copy once both files are open. *)
Lemma copy_file_opened src dst create_error device cwd s opened d' :
  cwd !! src = Some s -> Fs.read_error s = None ->
  open_wb dst create_error cwd = Done opened ->
  opened !! dst = Some d' ->
  exists s',
    opened !! src = Some s'
    /\ copy_file src dst create_error device cwd
       = match Fs.write_bytes device d' (Fs.bytes s') with
         | (Some msg, d'') => Raised msg (<[dst := d'']> opened)
         | (None, d'') => Done (<[dst := d'']> opened)
         end.
Proof.
  intros Hs Hr Hopen Hd.
  assert (is_Some (opened !! src)) as [s' Hs'].
  { unfold open_wb in Hopen.
    destruct (cwd !! dst) as [d|];
      [destruct (Fs.open_error d)|destruct create_error]; simplify_eq.
    - destruct (decide (src = dst)) as [->|Hne].
      + rewrite lookup_insert_eq. eauto.
      + rewrite lookup_insert_ne by done. eauto.
    - destruct (decide (src = dst)) as [->|Hne].
      + rewrite lookup_insert_eq. eauto.
      + rewrite lookup_insert_ne by done. eauto. }
  exists s'. split; [done|].
  unfold copy_file. by rewrite Hs, Hr, Hopen, Hs', Hd.
Qed.

(** X15.  Copying a file to another name succeeds when the source can be
    opened for reading, the destination can be opened for writing (or
    created, when it is not there) and the device takes the data: the
    destination then holds the source's bytes, whatever it held before,
    and the source and every other file are as they were. *)
Theorem copy_file_to_other_name cwd src dst s create_error device :
  src <> dst ->
  cwd !! src = Some s ->
  Fs.read_error s = None ->
  match cwd !! dst with
  | Some d => Fs.open_error d = None
  | None => create_error = None
  end ->
  (forall room msg, device = Some (room, msg) -> String.length (Fs.bytes s) <= room) ->
  exists cwd' d',
    copy_file src dst create_error device cwd = Done cwd'
    /\ cwd' !! dst = Some d'
    /\ Fs.bytes d' = Fs.bytes s
    /\ cwd' !! src = Some s
    /\ forall other, other <> dst -> cwd' !! other = cwd !! other.
Proof.
  intros Hne Hs Hr Hopen Hroom.
  assert (exists d0, open_wb dst create_error cwd = Done (<[dst := d0]> cwd))
    as [d0 Ho].
  { unfold open_wb. destruct (cwd !! dst) as [d|]; rewrite Hopen; eauto. }
  destruct (copy_file_opened src dst create_error device cwd s _ d0 Hs Hr Ho)
    as (s' & Hs' & ->); [apply lookup_insert_eq|].
  rewrite lookup_insert_ne, Hs in Hs' by done. injection Hs' as <-.
  assert (Fs.write_bytes device d0 (Fs.bytes s) = (None, Fs.set_bytes d0 (Fs.bytes s)))
    as ->.
  { unfold Fs.write_bytes. destruct device as [[room msg]|]; [|done].
    specialize (Hroom room msg eq_refl). apply Nat.ltb_ge in Hroom.
    by rewrite Hroom. }
  eexists _, _. split; [reflexivity|]. rewrite insert_insert_eq.
  split; [apply lookup_insert_eq|]. split; [done|].
  split; [by rewrite lookup_insert_ne|].
  intros other Ho'. by rewrite lookup_insert_ne.
Qed.

(** [test_copy_merged_profile], over a stale canonical profile. *)
Lemma copy_file_to_other_name_witness :
  exists cwd' d',
    copy_file "cpuprofile-merged.pprof" "cpuprofile.pprof" None None
      {[ "cpuprofile-merged.pprof" := Fs.plain_file "test profile data";
         "cpuprofile.pprof" := Fs.plain_file "stale profile" ]}
    = Done cwd'
    /\ cwd' !! "cpuprofile.pprof" = Some d'
    /\ Fs.bytes d' = Fs.bytes (Fs.plain_file "test profile data")
    /\ cwd' !! "cpuprofile-merged.pprof" = Some (Fs.plain_file "test profile data")
    /\ forall other, other <> "cpuprofile.pprof" ->
         cwd' !! other
         = ({[ "cpuprofile-merged.pprof" := Fs.plain_file "test profile data";
               "cpuprofile.pprof" := Fs.plain_file "stale profile" ]}
              : Workspace.directory) !! other.
Proof.
  apply (copy_file_to_other_name
           {[ "cpuprofile-merged.pprof" := Fs.plain_file "test profile data";
              "cpuprofile.pprof" := Fs.plain_file "stale profile" ]}
           "cpuprofile-merged.pprof" "cpuprofile.pprof"
           (Fs.plain_file "test profile data") None None).
  - discriminate.
  - vm_compute. reflexivity.
  - reflexivity.
  - vm_compute. reflexivity.
  - discriminate.
Defined.

(** X16.  The edges of the copy.  It fails and leaves the directory as it
    was, nothing created and nothing emptied, when the source is missing
    or cannot be opened for reading, or the destination cannot be opened
    for writing or created.  When the device fails during the write, the
    destination is left with the bytes written so far; what it held
    before is lost.  Copying a file onto itself empties it: the file is
    opened for writing, and so truncated, before it is read. *)
Theorem copy_file_edges cwd src dst create_error device :
  (cwd !! src = None ->
     copy_file src dst create_error device cwd
     = Raised "No such file or directory" cwd)
  /\ (forall s msg,
        cwd !! src = Some s -> Fs.read_error s = Some msg ->
        copy_file src dst create_error device cwd = Raised msg cwd)
  /\ (forall s d msg,
        cwd !! src = Some s -> Fs.read_error s = None ->
        cwd !! dst = Some d -> Fs.open_error d = Some msg ->
        copy_file src dst create_error device cwd = Raised msg cwd)
  /\ (forall s msg,
        cwd !! src = Some s -> Fs.read_error s = None ->
        cwd !! dst = None -> create_error = Some msg ->
        copy_file src dst create_error device cwd = Raised msg cwd)
  /\ (forall s d room msg,
        src <> dst ->
        cwd !! src = Some s -> Fs.read_error s = None ->
        cwd !! dst = Some d -> Fs.open_error d = None ->
        device = Some (room, msg) -> room < String.length (Fs.bytes s) ->
        copy_file src dst create_error device cwd
        = Raised msg (<[dst := Fs.set_bytes d (take room (Fs.bytes s))]> cwd))
  /\ (forall s,
        cwd !! src = Some s -> Fs.read_error s = None -> Fs.open_error s = None ->
        copy_file src src create_error device cwd
        = Done (<[src := Fs.set_bytes s EmptyString]> cwd)).
Proof.
  split; [|split; [|split; [|split; [|split]]]].
  - intros Hs. unfold copy_file. by rewrite Hs.
  - intros s msg Hs Hr. unfold copy_file. by rewrite Hs, Hr.
  - intros s d msg Hs Hr Hd Ho. unfold copy_file, open_wb. by rewrite Hs, Hr, Hd, Ho.
  - intros s msg Hs Hr Hd ->. unfold copy_file, open_wb. by rewrite Hs, Hr, Hd.
  - intros s d room msg Hne Hs Hr Hd Ho -> Hroom.
    assert (open_wb dst create_error cwd = Done (<[dst := Fs.set_bytes d EmptyString]> cwd))
      as Hopen by (unfold open_wb; by rewrite Hd, Ho).
    destruct (copy_file_opened src dst create_error (Some (room, msg)) cwd s _ _
                Hs Hr Hopen (lookup_insert_eq _ _ _))
      as (s' & Hs' & ->).
    rewrite lookup_insert_ne, Hs in Hs' by done. injection Hs' as <-.
    unfold Fs.write_bytes. apply Nat.ltb_lt in Hroom. rewrite Hroom.
    by rewrite insert_insert_eq.
  - intros s Hs Hr Ho.
    assert (open_wb src create_error cwd = Done (<[src := Fs.set_bytes s EmptyString]> cwd))
      as Hopen by (unfold open_wb; by rewrite Hs, Ho).
    destruct (copy_file_opened src src create_error device cwd s _ _
                Hs Hr Hopen (lookup_insert_eq _ _ _))
      as (s' & Hs' & ->).
    rewrite lookup_insert_eq in Hs'. injection Hs' as <-.
    unfold Fs.write_bytes. cbn [Fs.bytes Fs.set_bytes String.length].
    destruct device as [[room msg]|]; cbn; by rewrite insert_insert_eq.
Qed.

End CopyFile.
